(** * CareUltra: the encrypted-record flow of [frontend/web/src/App.tsx]

    A shallow embedding of the four asynchronous operations of the [App]
    component ([loadRecords], [submitRecord], [verifyRecord],
    [rejectRecord]) together with the part of the JavaScript run time
    they rely on, followed by the properties of the record store client
    and of the record mutation flow.

    The contract behind [getData]/[setData], the wallet, [JSON], [btoa]
    and the ethers codecs are external collaborators.  Their behaviour
    is an input of the model ([Env]); the key/value store they expose is
    part of the state ([World]). *)

From Stdlib Require Import ZArith String Ascii List DecimalString.
From Stdlib Require Import Sorting.Sorted Sorting.Permutation.
From stdpp Require Import gmap strings list fin_maps.

Local Open Scope Z_scope.
Set Warnings "-register-all".

(** ** JavaScript values *)

(** What [JSON.parse] can return.  Numbers are integers: the repository
    only ever writes [Math.floor(Date.now() / 1000)], and fractions are
    outside this development.  An object is the list of its own
    properties in insertion order. *)
Inductive json : Type :=
  | JNull
  | JBool (b : bool)
  | JNum (n : Z)
  | JStr (s : string)
  | JArr (items : list json)
  | JObj (props : list (string * json)).

(** A value read from a property: [None] is [undefined]. *)
Definition jsval : Type := option json.

(** ToBoolean, as used by [||]. *)
Definition truthy (v : jsval) : bool :=
  match v with
  | None | Some JNull => false
  | Some (JBool b) => b
  | Some (JNum n) => negb (n =? 0)
  | Some (JStr s) => negb (String.eqb s "")
  | Some (JArr _) | Some (JObj _) => true
  end.

(** [a || b] *)
Definition js_or (a : jsval) (b : json) : json :=
  match a with
  | Some v => if truthy a then v else b
  | None => b
  end.

(** [v === "literal"] *)
Definition is_str (v : json) (lit : string) : bool :=
  match v with
  | JStr s => String.eqb s lit
  | _ => false
  end.

Definition Z_to_string (n : Z) : string := NilZero.string_of_int (Z.to_int n).
Definition nat_to_string (n : nat) : string := Z_to_string (Z.of_nat n).

(** ToString, as applied by template literals and by property keys.
    Array elements are joined with commas, [null] elements as the empty
    string.  An object answers through the inherited [toString]; an
    object that has a property of its own named [toString] makes the
    conversion throw instead, and lies outside this function, as do
    numbers that JavaScript prints with an exponent.  Keys and categories
    are declared as strings. *)
Fixpoint to_string (v : json) : string :=
  match v with
  | JNull => "null"
  | JBool true => "true"
  | JBool false => "false"
  | JNum n => Z_to_string n
  | JStr s => s
  | JArr items =>
      (fix join (l : list json) : string :=
         match l with
         | [] => ""
         | x :: rest =>
             let sx := match x with JNull => "" | _ => to_string x end in
             match rest with
             | [] => sx
             | _ => sx +:+ "," +:+ join rest
             end
         end) items
  | JObj _ => "[object Object]"
  end.

(** ToString of a possibly undefined value. *)
Definition key_of (v : jsval) : string :=
  match v with
  | None => "undefined"
  | Some j => to_string j
  end.

(** Own property lookup in an object's property list. *)
Fixpoint obj_get (k : string) (o : list (string * json)) : jsval :=
  match o with
  | [] => None
  | (k', v) :: rest => if String.eqb k k' then Some v else obj_get k rest
  end.

(** Assignment of one property: an existing property keeps its place. *)
Fixpoint obj_set (k : string) (v : json) (o : list (string * json))
  : list (string * json) :=
  match o with
  | [] => [(k, v)]
  | (k', v') :: rest =>
      if String.eqb k k' then (k, v) :: rest else (k', v') :: obj_set k v rest
  end.

(** Engine-raised errors; their messages are the engine's ([Env]). *)
Inductive engine_error : Type :=
  | SyntaxErr        (* JSON.parse / toUtf8String on undecodable bytes *)
  | NullProperty     (* property read on null *)
  | NotIterable      (* for-of over a value without an iterator *)
  | NotAFunction.    (* keys.push on a value that is not an array *)

(** The result of an operation that may throw; an exception is
    represented by its [message]. *)
Inductive outcome (A : Type) : Type :=
  | Ok (a : A)
  | Throw (message : string).
Arguments Ok {A} a.
Arguments Throw {A} message.

(** [recordData.<name>] for the five names the program reads; none of
    them is inherited from a prototype, so every value but [null] answers
    with its own property or [undefined]. *)
Definition get_prop (v : json) (name : string) : option jsval :=
  match v with
  | JNull => None                      (* TypeError *)
  | JObj o => Some (obj_get name o)
  | _ => Some None
  end.

(** The characters of a string, each as a one-character string. *)
Fixpoint chars (s : string) : list string :=
  match s with
  | EmptyString => []
  | String c rest => String c EmptyString :: chars rest
  end.

(** The values a [for (const key of keys)] loop visits; [None] when the
    value is not iterable. *)
Definition iterate (v : json) : option (list json) :=
  match v with
  | JArr items => Some items
  | JStr s => Some (JStr <$> chars s)
  | _ => None
  end.

Fixpoint indexed {A} (i : nat) (l : list A) : list (string * A) :=
  match l with
  | [] => []
  | x :: rest => (nat_to_string i, x) :: indexed (S i) rest
  end.

(** The own enumerable properties copied by [{...v}]. *)
Definition spread (v : json) : list (string * json) :=
  match v with
  | JObj o => o
  | JArr items => indexed 0 items
  | JStr s => indexed 0 (JStr <$> chars s)
  | JNull | JBool _ | JNum _ => []
  end.

(** [keys.push(x)] on whatever [keys] holds at run time. *)
Definition push (keys : json) (x : json) : option json :=
  match keys with
  | JArr items => Some (JArr (items ++ [x]))
  | _ => None                          (* TypeError *)
  end.

(** ToNumber for the operands of [b.timestamp - a.timestamp]; [None] is
    NaN.  The interface declares [timestamp: number].  For the other
    primitive values the coercion is the language's; the numeric reading
    of strings, arrays and objects is not modelled (they are read as
    NaN) and no statement below depends on it. *)
Definition to_number (v : jsval) : option Z :=
  match v with
  | Some (JNum n) => Some n
  | Some JNull => Some 0
  | Some (JBool true) => Some 1
  | Some (JBool false) => Some 0
  | _ => None
  end.

(** [x - y] *)
Definition js_minus (x y : jsval) : option Z :=
  match to_number x, to_number y with
  | Some a, Some b => Some (a - b)
  | _, _ => None
  end.

(** [haystack.includes(needle)] *)
Fixpoint includes (haystack needle : string) : bool :=
  String.prefix needle haystack ||
  match haystack with
  | EmptyString => false
  | String _ rest => includes rest needle
  end.

(** ** Stored bytes *)

(** The program observes a stored value in two ways only: through
    [.length] and through [JSON.parse(ethers.toUtf8String(bytes))].
    Bytes are therefore represented by what these two observations
    return. *)
Inductive bytes : Type :=
  | Bytes0                     (* length 0: the key was never written *)
  | BytesBad                   (* length > 0, decoding or parsing throws *)
  | BytesJson (v : json).      (* length > 0, parses to v *)

Definition nonempty (b : bytes) : bool :=
  match b with Bytes0 => false | _ => true end.

(** [JSON.parse(ethers.toUtf8String(b))] *)
Definition JSON_parse (b : bytes) : option json :=
  match b with BytesJson v => Some v | _ => None end.

(** [ethers.toUtf8Bytes(JSON.stringify(v))]: never empty, and parses back
    to [v]. *)
Definition JSON_bytes (v : json) : bytes := BytesJson v.

(** ** The environment *)

(** [newRecordData], the form behind the create modal. *)
Record NewRecordData : Type := {
  form_category : string;
  form_description : string;
  form_sensitiveInfo : string }.

(** Everything the program gets from outside and cannot control: whether
    a contract handle is obtained, which remote calls throw (and with
    which message), the text [btoa] returns, and the engine's wording. *)
Record Env : Type := {
  getContractReadOnly : outcome bool;          (* false: null *)
  isAvailable : outcome bool;
  read_error : string -> option string;        (* getData(key), read-only *)
  getContractWithSigner : outcome bool;        (* false: null *)
  signer_read_error : string -> option string; (* getData(key), signer *)
  write_error : string -> option string;       (* setData(key, _) *)
  btoa_JSON : NewRecordData -> outcome string; (* btoa(JSON.stringify(_)) *)
  engine_message : engine_error -> string;
  inherited_text : string -> string }.         (* String(Object.prototype[k]) *)

(** ** The state *)

Record EncryptedRecord : Type := {
  id : json;
  encryptedData : jsval;
  timestamp : jsval;
  owner : jsval;
  category : jsval;
  status : json }.

Inductive tx_status : Type := TxPending | TxSuccess | TxError.

Record TransactionStatus : Type := {
  visible : bool;
  tx : tx_status;
  tx_message : string }.

(** A value of the [categoryStats] object: a count, or the string that
    [+ 1] produces once the left operand is not a number. *)
Inductive catval : Type :=
  | Count (n : nat)
  | Text (s : string).

Record Stats : Type := {
  totalRecords : nat;
  pending : nat;
  verified : nat;
  rejected : nat;
  categoryStats : gmap string catval }.

(** A call made on a contract handle. *)
Inductive call : Type :=
  | CallIsAvailable
  | CallGetData (key : string)
  | CallSetData (key : string) (value : bytes).

(** The contract's key/value store, the calls made so far, what was
    written to the console and shown in alerts, and the React state of
    [App] that the four operations touch.  An operation is followed until
    its promise settles; the callbacks it hands to [setTimeout], which
    hide the banner and the modal seconds later, are not run. *)
Record World : Type := {
  chain : gmap string bytes;
  trace : list call;
  console : list (string * string);
  alerts : list string;
  account : string;
  provider : bool;                     (* provider !== null *)
  loading : bool;
  records : list EncryptedRecord;
  isRefreshing : bool;
  creating : bool;
  transactionStatus : TransactionStatus;
  newRecordData : NewRecordData;
  stats : Stats }.

Definition with_chain (c : gmap string bytes) (w : World) : World :=
  {| chain := c; trace := trace w; console := console w; alerts := alerts w;
     account := account w; provider := provider w; loading := loading w;
     records := records w; isRefreshing := isRefreshing w;
     creating := creating w; transactionStatus := transactionStatus w;
     newRecordData := newRecordData w; stats := stats w |}.

Definition with_trace (t : list call) (w : World) : World :=
  {| chain := chain w; trace := t; console := console w; alerts := alerts w;
     account := account w; provider := provider w; loading := loading w;
     records := records w; isRefreshing := isRefreshing w;
     creating := creating w; transactionStatus := transactionStatus w;
     newRecordData := newRecordData w; stats := stats w |}.

Definition with_console (c : list (string * string)) (w : World) : World :=
  {| chain := chain w; trace := trace w; console := c; alerts := alerts w;
     account := account w; provider := provider w; loading := loading w;
     records := records w; isRefreshing := isRefreshing w;
     creating := creating w; transactionStatus := transactionStatus w;
     newRecordData := newRecordData w; stats := stats w |}.

Definition with_alerts (a : list string) (w : World) : World :=
  {| chain := chain w; trace := trace w; console := console w; alerts := a;
     account := account w; provider := provider w; loading := loading w;
     records := records w; isRefreshing := isRefreshing w;
     creating := creating w; transactionStatus := transactionStatus w;
     newRecordData := newRecordData w; stats := stats w |}.

Definition setLoading (b : bool) (w : World) : World :=
  {| chain := chain w; trace := trace w; console := console w;
     alerts := alerts w; account := account w; provider := provider w;
     loading := b; records := records w; isRefreshing := isRefreshing w;
     creating := creating w; transactionStatus := transactionStatus w;
     newRecordData := newRecordData w; stats := stats w |}.

Definition setRecords (l : list EncryptedRecord) (w : World) : World :=
  {| chain := chain w; trace := trace w; console := console w;
     alerts := alerts w; account := account w; provider := provider w;
     loading := loading w; records := l; isRefreshing := isRefreshing w;
     creating := creating w; transactionStatus := transactionStatus w;
     newRecordData := newRecordData w; stats := stats w |}.

Definition setIsRefreshing (b : bool) (w : World) : World :=
  {| chain := chain w; trace := trace w; console := console w;
     alerts := alerts w; account := account w; provider := provider w;
     loading := loading w; records := records w; isRefreshing := b;
     creating := creating w; transactionStatus := transactionStatus w;
     newRecordData := newRecordData w; stats := stats w |}.

Definition setCreating (b : bool) (w : World) : World :=
  {| chain := chain w; trace := trace w; console := console w;
     alerts := alerts w; account := account w; provider := provider w;
     loading := loading w; records := records w;
     isRefreshing := isRefreshing w; creating := b;
     transactionStatus := transactionStatus w;
     newRecordData := newRecordData w; stats := stats w |}.

Definition setTransactionStatus (t : TransactionStatus) (w : World) : World :=
  {| chain := chain w; trace := trace w; console := console w;
     alerts := alerts w; account := account w; provider := provider w;
     loading := loading w; records := records w;
     isRefreshing := isRefreshing w; creating := creating w;
     transactionStatus := t; newRecordData := newRecordData w;
     stats := stats w |}.

Definition setStats (s : Stats) (w : World) : World :=
  {| chain := chain w; trace := trace w; console := console w;
     alerts := alerts w; account := account w; provider := provider w;
     loading := loading w; records := records w;
     isRefreshing := isRefreshing w; creating := creating w;
     transactionStatus := transactionStatus w;
     newRecordData := newRecordData w; stats := s |}.

(** [console.error(label, e)] and [alert(text)] *)
Definition console_error (label message : string) (w : World) : World :=
  with_console (console w ++ [(label, message)]) w.

Definition alert (text : string) (w : World) : World :=
  with_alerts (alerts w ++ [text]) w.

(** ** The contract surface *)

(** [await contract.getData(key)]: the call is made; it throws when the
    environment says so, and otherwise returns the stored bytes, empty
    for a key never written. *)
Definition getData (errs : string -> option string) (key : string) (w : World)
  : outcome bytes * World :=
  let w := with_trace (trace w ++ [CallGetData key]) w in
  match errs key with
  | Some message => (Throw message, w)
  | None => (Ok (default Bytes0 (chain w !! key)), w)
  end.

(** [await contract.setData(key, value)]: the store changes only when the
    transaction goes through. *)
Definition setData (e : Env) (key : string) (value : bytes) (w : World)
  : outcome unit * World :=
  let w := with_trace (trace w ++ [CallSetData key value]) w in
  match write_error e key with
  | Some message => (Throw message, w)
  | None => (Ok tt, with_chain (<[key := value]> (chain w)) w)
  end.

(** ** loadRecords *)

(** The shared prologue of [loadRecords] and [submitRecord]:
[[
      let keys: string[] = [];
      if (keysBytes.length > 0) {
        try { keys = JSON.parse(ethers.toUtf8String(keysBytes)); }
        catch (e) { console.error(label, e); }
      }
]] *)
Definition parse_keys (e : Env) (label : string) (keysBytes : bytes)
    (w : World) : json * World :=
  if nonempty keysBytes then
    match JSON_parse keysBytes with
    | Some v => (v, w)
    | None => (JArr [], console_error label (engine_message e SyntaxErr) w)
    end
  else (JArr [], w).

(** The names [Object.prototype] defines, which a read of
    [categoryStats[name]] finds when the object has no such property of
    its own ([categoryStats] is created by the literal [{}]). *)
Definition Object_prototype : list string :=
  ["constructor"; "hasOwnProperty"; "isPrototypeOf"; "propertyIsEnumerable";
   "toLocaleString"; "toString"; "valueOf"; "__proto__";
   "__defineGetter__"; "__defineSetter__";
   "__lookupGetter__"; "__lookupSetter__"].

(** [categoryStats[c] = (categoryStats[c] || 0) + 1].  The read falls
    back to [Object.prototype]; an inherited member is truthy, and adding
    1 to it concatenates.  The write to ["__proto__"] reaches the
    inherited setter, which ignores a value that is not an object. *)
Definition count_category (e : Env) (cs : gmap string catval) (c : jsval)
  : gmap string catval :=
  let k := key_of c in
  let next :=
    match cs !! k with
    | Some (Count n) => Count (n + 1)
    | Some (Text s) => if String.eqb s "" then Count 1 else Text (s +:+ "1")
    | None =>
        if bool_decide (k ∈ Object_prototype)
        then Text (inherited_text e k +:+ "1")
        else Count 1
    end in
  if String.eqb k "__proto__" then cs else <[k := next]> cs.

(** The locals of [loadRecords] that the loop updates. *)
Record Locals : Type := {
  l_list : list EncryptedRecord;
  l_categoryStats : gmap string catval;
  l_pending : nat;
  l_verified : nat;
  l_rejected : nat }.

Definition no_locals : Locals :=
  {| l_list := []; l_categoryStats := ∅;
     l_pending := 0; l_verified := 0; l_rejected := 0 |}.

(** The record built from a parsed value and its key; [None] when a
    property read throws. *)
Definition make_record (key : json) (recordData : json)
  : option EncryptedRecord :=
  match get_prop recordData "data", get_prop recordData "timestamp",
        get_prop recordData "owner", get_prop recordData "category",
        get_prop recordData "status" with
  | Some d, Some t, Some o, Some c, Some s =>
      Some {| id := key; encryptedData := d; timestamp := t; owner := o;
              category := c; status := js_or s (JStr "pending") |}
  | _, _, _, _, _ => None
  end.

(** The statements that follow the construction of [record]:
[[
      list.push(record);
      if (record.status === "pending") pending++;
      else if (record.status === "verified") verified++;
      else if (record.status === "rejected") rejected++;
      categoryStats[record.category] = (categoryStats[record.category] || 0) + 1;
]] *)
Definition tally (e : Env) (record : EncryptedRecord) (a : Locals) : Locals :=
  let list := l_list a ++ [record] in
  let '(pending, verified, rejected) :=
    if is_str (status record) "pending"
    then (S (l_pending a), l_verified a, l_rejected a)
    else if is_str (status record) "verified"
    then (l_pending a, S (l_verified a), l_rejected a)
    else if is_str (status record) "rejected"
    then (l_pending a, l_verified a, S (l_rejected a))
    else (l_pending a, l_verified a, l_rejected a) in
  {| l_list := list;
     l_categoryStats := count_category e (l_categoryStats a) (category record);
     l_pending := pending;
     l_verified := verified;
     l_rejected := rejected |}.

(** One turn of [for (const key of keys)]. *)
Definition load_step (e : Env) (st : World * Locals) (key : json)
  : World * Locals :=
  let '(w, a) := st in
  match getData (read_error e) ("record_" +:+ to_string key) w with
  | (Throw message, w) =>
      (console_error ("Error loading record " +:+ to_string key +:+ ":")
         message w, a)
  | (Ok recordBytes, w) =>
      if nonempty recordBytes then
        match JSON_parse recordBytes with
        | None =>
            (console_error
               ("Error parsing record data for " +:+ to_string key +:+ ":")
               (engine_message e SyntaxErr) w, a)
        | Some recordData =>
            match make_record key recordData with
            | None =>
                (console_error
                   ("Error parsing record data for " +:+ to_string key +:+ ":")
                   (engine_message e NullProperty) w, a)
            | Some record => (w, tally e record a)
            end
        end
      else (w, a)
  end.

(** The comparator [(a, b) => b.timestamp - a.timestamp]. *)
Definition by_timestamp (a b : EncryptedRecord) : option Z :=
  js_minus (timestamp b) (timestamp a).

(** [Array.prototype.sort(compare)]: a stable sort; [x] is moved behind
    [y] exactly when [compare(x, y) > 0] (NaN counts as 0).  The language
    fixes the result, and it is this one, when the comparator is
    consistent, as [by_timestamp] is on records whose timestamps are
    numbers.  Once a comparison is NaN the order is left to the engine:
    [Array_sort] then returns one rearrangement among those an engine may
    produce, and no statement below about the order covers that case. *)
Definition goes_after {A} (compare : A -> A -> option Z) (x y : A) : bool :=
  match compare x y with
  | Some v => 0 <? v
  | None => false
  end.

Fixpoint sort_insert {A} (compare : A -> A -> option Z) (x : A) (l : list A)
  : list A :=
  match l with
  | [] => [x]
  | y :: rest =>
      if goes_after compare x y
      then y :: sort_insert compare x rest
      else x :: y :: rest
  end.

Definition Array_sort {A} (compare : A -> A -> option Z) (l : list A) : list A :=
  foldr (sort_insert compare) [] l.

(** The body of the [try] block of [loadRecords]. *)
Definition loadRecords_try (e : Env) (w : World) : World :=
  match getContractReadOnly e with
  | Throw message => console_error "Error loading records:" message w
  | Ok false => w
  | Ok true =>
      let w := with_trace (trace w ++ [CallIsAvailable]) w in
      match isAvailable e with
      | Throw message => console_error "Error loading records:" message w
      | Ok false => console_error "Contract is not available" "" w
      | Ok true =>
          match getData (read_error e) "record_keys" w with
          | (Throw message, w) =>
              console_error "Error loading records:" message w
          | (Ok keysBytes, w) =>
              let '(keys, w) :=
                parse_keys e "Error parsing record keys:" keysBytes w in
              match iterate keys with
              | None =>
                  console_error "Error loading records:"
                    (engine_message e NotIterable) w
              | Some ks =>
                  let '(w, a) := foldl (load_step e) (w, no_locals) ks in
                  let list := Array_sort by_timestamp (l_list a) in
                  let w := setRecords list w in
                  setStats
                    {| totalRecords := length list;
                       pending := l_pending a;
                       verified := l_verified a;
                       rejected := l_rejected a;
                       categoryStats := l_categoryStats a |} w
              end
          end
      end
  end.

Definition loadRecords (e : Env) (w : World) : World :=
  let w := setIsRefreshing true w in
  let w := loadRecords_try e w in
  setLoading false (setIsRefreshing false w).

(** ** The mutations *)

(** An asynchronous block that may throw: it transforms the world and
    either returns or raises. *)
Definition action (A : Type) : Type := World -> outcome A * World.

Definition ret {A} (a : A) : action A := fun w => (Ok a, w).
Definition throw {A} (message : string) : action A := fun w => (Throw message, w).
Definition bind {A B} (m : action A) (k : A -> action B) : action B :=
  fun w =>
    match m w with
    | (Ok a, w') => k a w'
    | (Throw message, w') => (Throw message, w')
    end.
Definition get {A} (f : World -> A) : action A := fun w => (Ok (f w), w).
Definition modify (f : World -> World) : action unit := fun w => (Ok tt, f w).
Definition lift {A} (o : outcome A) : action A := fun w => (o, w).

Notation "'do' x <- m ; k" := (bind m (fun x => k))
  (at level 10, x name, m at level 100, k at level 200).
Notation "'do' ' p <- m ; k" := (bind m (fun x => let 'p := x in k))
  (at level 10, p pattern, m at level 100, k at level 200).

(** [const contract = await getContractWithSigner();
     if (!contract) throw new Error("Failed to get contract with signer");] *)
Definition contractWithSigner (e : Env) : action unit :=
  do c <- lift (getContractWithSigner e);
  if (c : bool) then ret tt else throw "Failed to get contract with signer".

(** [e.message || "Unknown error"] *)
Definition message_or_unknown (message : string) : string :=
  if String.eqb message "" then "Unknown error" else message.

Definition banner (t : tx_status) (text : string) : TransactionStatus :=
  {| visible := true; tx := t; tx_message := text |}.

(** [`${Date.now()}-${Math.random().toString(36).substring(2, 9)}`] *)
Definition new_id (now1 : Z) (random : string) : string :=
  Z_to_string now1 +:+ "-" +:+ random.

(** The object literal [recordData] of [submitRecord]. *)
Definition new_recordData (encryptedData : string) (seconds : Z)
    (account category : string) : json :=
  JObj [("data", JStr encryptedData);
        ("timestamp", JNum seconds);
        ("owner", JStr account);
        ("category", JStr category);
        ("status", JStr "pending")].

(** The [try] block of [submitRecord].  [now1] and [now2] are what the
    two calls of [Date.now()] return, [random] is
    [Math.random().toString(36).substring(2, 9)]. *)
Definition submitRecord_try (e : Env) (now1 : Z) (random : string) (now2 : Z)
  : action unit :=
  do form <- get newRecordData;
  do b64 <- lift (btoa_JSON e form);
  let encryptedData := "FHE-" +:+ b64 in
  do _ <- contractWithSigner e;
  let recordId := new_id now1 random in
  do acc <- get account;
  let recordData :=
    new_recordData encryptedData (now2 / 1000) acc (form_category form) in
  do _ <- setData e ("record_" +:+ recordId) (JSON_bytes recordData);
  do keysBytes <- getData (signer_read_error e) "record_keys";
  do keys <- (fun w =>
                let '(keys, w) := parse_keys e "Error parsing keys:" keysBytes w
                in (Ok keys, w));
  do keys <- match push keys (JStr recordId) with
             | Some keys => ret keys
             | None => throw (engine_message e NotAFunction)
             end;
  do _ <- setData e "record_keys" (JSON_bytes keys);
  do _ <- modify (setTransactionStatus
                    (banner TxSuccess "Encrypted data submitted securely!"));
  modify (loadRecords e).

Definition submitRecord (e : Env) (now1 : Z) (random : string) (now2 : Z)
    (w : World) : World :=
  if negb (provider w) then alert "Please connect wallet first" w
  else
    let w := setCreating true w in
    let w := setTransactionStatus
               (banner TxPending "Encrypting sensitive data with Zama FHE...") w in
    let w :=
      match submitRecord_try e now1 random now2 w with
      | (Ok _, w) => w
      | (Throw message, w) =>
          let errorMessage :=
            if includes message "user rejected transaction"
            then "Transaction rejected by user"
            else "Submission failed: " +:+ message_or_unknown message in
          setTransactionStatus (banner TxError errorMessage) w
      end in
    setCreating false w.

(** [verifyRecord] and [rejectRecord] are the same text but for three
    literals: the status written, the success message and the prefix of
    the failure message. *)
Definition update_try (e : Env) (newStatus success : string) (recordId : string)
  : action unit :=
  do _ <- contractWithSigner e;
  do recordBytes <- getData (signer_read_error e) ("record_" +:+ recordId);
  do _ <- (if nonempty recordBytes then ret tt else throw "Record not found");
  do recordData <- match JSON_parse recordBytes with
                   | Some v => ret v
                   | None => throw (engine_message e SyntaxErr)
                   end;
  let updatedRecord := JObj (obj_set "status" (JStr newStatus) (spread recordData)) in
  do _ <- setData e ("record_" +:+ recordId) (JSON_bytes updatedRecord);
  do _ <- modify (setTransactionStatus (banner TxSuccess success));
  modify (loadRecords e).

Definition update (e : Env) (newStatus success failure : string)
    (recordId : string) (w : World) : World :=
  if negb (provider w) then alert "Please connect wallet first" w
  else
    let w := setTransactionStatus
               (banner TxPending "Processing encrypted data with FHE...") w in
    match update_try e newStatus success recordId w with
    | (Ok _, w) => w
    | (Throw message, w) =>
        setTransactionStatus
          (banner TxError (failure +:+ message_or_unknown message)) w
    end.

Definition verifyRecord (e : Env) (recordId : string) (w : World) : World :=
  update e "verified" "FHE verification completed successfully!"
    "Verification failed: " recordId w.

Definition rejectRecord (e : Env) (recordId : string) (w : World) : World :=
  update e "rejected" "Record rejected successfully!"
    "Rejection failed: " recordId w.

(** ** The action buttons *)

(** [account.toLowerCase() === address.toLowerCase()] *)
Definition lower_ascii (c : ascii) : ascii :=
  let n := nat_of_ascii c in
  if ((65 <=? n) && (n <=? 90))%nat then ascii_of_nat (n + 32) else c.

Fixpoint toLowerCase (s : string) : string :=
  match s with
  | EmptyString => EmptyString
  | String c rest => String (lower_ascii c) (toLowerCase rest)
  end.

Definition isOwner (w : World) (address : string) : bool :=
  String.eqb (toLowerCase (account w)) (toLowerCase address).

(** [isOwner(record.owner) && record.status === "pending"]: the condition
    under which a row shows its Verify and Reject buttons.  A row whose
    owner is not a string makes the rendering throw, and shows nothing. *)
Definition shows_actions (w : World) (record : EncryptedRecord) : bool :=
  match owner record with
  | Some (JStr address) => isOwner w address && is_str (status record) "pending"
  | _ => false
  end.

(** ** A concrete environment and world *)

(** An environment in which every call goes through. *)
Definition calm : Env :=
  {| getContractReadOnly := Ok true;
     isAvailable := Ok true;
     read_error := fun _ => None;
     getContractWithSigner := Ok true;
     signer_read_error := fun _ => None;
     write_error := fun _ => None;
     btoa_JSON := fun f => Ok (form_category f +:+ "/" +:+ form_sensitiveInfo f);
     engine_message := fun err =>
       match err with
       | SyntaxErr => "Unexpected token"
       | NullProperty => "Cannot read properties of null"
       | NotIterable => "keys is not iterable"
       | NotAFunction => "keys.push is not a function"
       end;
     inherited_text := fun k =>
       if String.eqb k "__proto__" then "[object Object]"
       else if String.eqb k "constructor"
            then "function Object() { [native code] }"
            else "function " +:+ k +:+ "() { [native code] }" |}.

Definition no_stats : Stats :=
  {| totalRecords := 0; pending := 0; verified := 0; rejected := 0;
     categoryStats := ∅ |}.

(** The state of [App] right after mounting, over a given store, with a
    wallet connected as [who]. *)
Definition mounted (store : gmap string bytes) (who : string) : World :=
  {| chain := store; trace := []; console := []; alerts := [];
     account := who; provider := true; loading := true; records := [];
     isRefreshing := false; creating := false;
     transactionStatus :=
       {| visible := false; tx := TxPending; tx_message := "" |};
     newRecordData :=
       {| form_category := "KYC"; form_description := "";
          form_sensitiveInfo := "secret" |};
     stats := no_stats |}.

(** ** Vocabulary of the statements *)

(** The storage key of a record. *)
Definition record_key (recordId : string) : string := "record_" +:+ recordId.

(** What one key of the index contributes to a load, read off the store:
    the record, when the fetch goes through and returns bytes that parse
    to something other than [null]. *)
Definition fetch_record (e : Env) (c : gmap string bytes) (key : json)
  : option EncryptedRecord :=
  match read_error e (record_key (to_string key)) with
  | Some _ => None
  | None =>
      match default Bytes0 (c !! record_key (to_string key)) with
      | BytesJson v => make_record key v
      | _ => None
      end
  end.

(** The console entry a key leaves behind when its fetch or its parse
    fails. *)
Definition failure_log (e : Env) (c : gmap string bytes) (key : json)
  : option (string * string) :=
  match read_error e (record_key (to_string key)) with
  | Some message =>
      Some ("Error loading record " +:+ to_string key +:+ ":", message)
  | None =>
      match default Bytes0 (c !! record_key (to_string key)) with
      | Bytes0 => None
      | BytesBad =>
          Some ("Error parsing record data for " +:+ to_string key +:+ ":",
                engine_message e SyntaxErr)
      | BytesJson v =>
          match make_record key v with
          | Some _ => None
          | None =>
              Some ("Error parsing record data for " +:+ to_string key +:+ ":",
                    engine_message e NullProperty)
          end
      end
  end.

(** The keys a load walks through, read off the stored index: none when
    the index is empty or unreadable, the elements of the stored array
    (or the characters of a stored string) otherwise. *)
Definition index_keys (c : gmap string bytes) : option (list json) :=
  match default Bytes0 (c !! "record_keys") with
  | Bytes0 | BytesBad => Some []
  | BytesJson v => iterate v
  end.


(** The status a load would show for a stored record. *)
Definition stored_status (c : gmap string bytes) (recordId : string)
  : option json :=
  match default Bytes0 (c !! record_key recordId) with
  | BytesJson v => status <$> make_record (JStr recordId) v
  | _ => None
  end.

(** A field of the stored record, as [recordData.<name>]. *)
Definition stored_field (c : gmap string bytes) (recordId name : string)
  : option jsval :=
  match default Bytes0 (c !! record_key recordId) with
  | BytesJson v => get_prop v name
  | _ => None
  end.

(** A status update requested on a record id, and a run of such
    requests, each in its own environment. *)
Inductive request : Type :=
  | Verify (recordId : string)
  | Reject (recordId : string).

Definition serve (e : Env) (r : request) (w : World) : World :=
  match r with
  | Verify recordId => verifyRecord e recordId w
  | Reject recordId => rejectRecord e recordId w
  end.

Definition serve_all (rs : list (Env * request)) (w : World) : World :=
  foldl (fun w er => serve er.1 er.2 w) w rs.

(** The sum of the numeric entries of [categoryStats]. *)
Definition category_total (cs : gmap string catval) : nat :=
  map_fold (fun _ v n => match v with Count k => (k + n)%nat | Text _ => n end)
    0%nat cs.

Definition has_status (s : string) (r : EncryptedRecord) : bool :=
  is_str (status r) s.

(** [a] is not older than [b]; both timestamps are numbers. *)
Definition not_older (a b : EncryptedRecord) : Prop :=
  exists x y, timestamp a = Some (JNum x) /\ timestamp b = Some (JNum y) /\ y <= x.

Definition numeric_timestamp (r : EncryptedRecord) : Prop :=
  exists x, timestamp r = Some (JNum x).

(** What a load leaves untouched. *)
Definition bystanders (w : World) :=
  (chain w, alerts w, account w, provider w, creating w,
   transactionStatus w, newRecordData w).

(** A world that only gained console entries and calls. *)
Definition logged (c : list (string * string)) (t : list call) (w : World)
  : World :=
  with_console (console w ++ c) (with_trace (trace w ++ t) w).

(** The effect of one key on the locals of the loop, read off the
    store. *)
Definition absorb (e : Env) (c : gmap string bytes) (a : Locals) (key : json)
  : Locals :=
  match fetch_record e c key with
  | Some r => tally e r a
  | None => a
  end.

(** The records a load finds behind the keys [ks], in index order. *)
Definition loaded (e : Env) (w : World) (ks : list json) : list EncryptedRecord :=
  omap (fetch_record e (chain w)) ks.

(** The end of [loadRecords]: sort, [setRecords], [setStats]. *)
Definition summary (a : Locals) (w : World) : World :=
  let list := Array_sort by_timestamp (l_list a) in
  setStats {| totalRecords := length list;
              pending := l_pending a; verified := l_verified a;
              rejected := l_rejected a;
              categoryStats := l_categoryStats a |}
    (setRecords list w).


(** A store with one pending record, and the world once it is loaded. *)
Definition one_record : gmap string bytes :=
  <["record_keys" := BytesJson (JArr [JStr "r1"])]>
  (<["record_r1" :=
       BytesJson (JObj [("data", JStr "FHE-eA=="); ("timestamp", JNum 1700000000);
                        ("owner", JStr "0xAb"); ("category", JStr "KYC");
                        ("status", JStr "pending")])]> ∅).

Definition seen : World := loadRecords calm (mounted one_record "0xAb").

(** [calm], except that fetching the index throws. *)
Definition index_unreachable : Env :=
  {| getContractReadOnly := Ok true;
     isAvailable := Ok true;
     read_error := fun k =>
       if String.eqb k "record_keys" then Some "network error" else None;
     getContractWithSigner := Ok true;
     signer_read_error := fun _ => None;
     write_error := fun _ => None;
     btoa_JSON := btoa_JSON calm;
     engine_message := engine_message calm;
     inherited_text := inherited_text calm |}.

(** A store whose index names four keys: a pending record, bytes that
    do not parse, a key whose fetch throws in [flaky], and an older
    verified record. *)
Definition mixed_store : gmap string bytes :=
  <["record_keys" :=
      BytesJson (JArr [JStr "old"; JStr "bad"; JStr "gone"; JStr "new"])]>
  (<["record_old" :=
       BytesJson (JObj [("data", JStr "FHE-eA=="); ("timestamp", JNum 1600000000);
                        ("owner", JStr "0xAb"); ("category", JStr "KYC");
                        ("status", JStr "verified")])]>
  (<["record_bad" := BytesBad]>
  (<["record_gone" :=
       BytesJson (JObj [("data", JStr "FHE-eQ=="); ("timestamp", JNum 1650000000);
                        ("owner", JStr "0xCd"); ("category", JStr "Credit");
                        ("status", JStr "pending")])]>
  (<["record_new" :=
       BytesJson (JObj [("data", JStr "FHE-eg=="); ("timestamp", JNum 1700000000);
                        ("owner", JStr "0xAb"); ("category", JStr "Medical")])]>
   ∅)))).


(** The record a request aims at, and the prefix of the message shown
    when it fails. *)
Definition target (r : request) : string :=
  match r with Verify recordId | Reject recordId => recordId end.

Definition failure_prefix (r : request) : string :=
  match r with
  | Verify _ => "Verification failed: "
  | Reject _ => "Rejection failed: "
  end.

Definition written_status (r : request) : string :=
  match r with
  | Verify _ => "verified"
  | Reject _ => "rejected"
  end.

Definition is_write (c : call) : bool :=
  match c with CallSetData _ _ => true | _ => false end.

(** The list [keys] holds in [submitRecord] before the push, when it is
    one: empty for an index that is empty or does not parse. *)
Definition keys_before (c : gmap string bytes) : option (list json) :=
  match default Bytes0 (c !! "record_keys") with
  | Bytes0 | BytesBad => Some []
  | BytesJson (JArr ids) => Some ids
  | BytesJson _ => None
  end.

(** A store whose index does not parse. *)
Definition broken_index : gmap string bytes :=
  <["record_keys" := BytesBad]> one_record.

(** A store with one record whose category is ["__proto__"], and one
    with a record whose category is ["constructor"]. *)
Definition proto_store : gmap string bytes :=
  <["record_keys" := BytesJson (JArr [JStr "p1"])]>
  (<["record_p1" :=
       BytesJson (JObj [("data", JStr "FHE-eA=="); ("timestamp", JNum 1700000000);
                        ("owner", JStr "0xAb"); ("category", JStr "__proto__");
                        ("status", JStr "pending")])]> ∅).

Definition constructor_store : gmap string bytes :=
  <["record_keys" := BytesJson (JArr [JStr "c1"])]>
  (<["record_c1" :=
       BytesJson (JObj [("data", JStr "FHE-eA=="); ("timestamp", JNum 1700000000);
                        ("owner", JStr "0xAb"); ("category", JStr "constructor");
                        ("status", JStr "pending")])]> ∅).

(** Every entry of [categoryStats] is a number. *)
Definition counts_only (cs : gmap string catval) : Prop :=
  forall k v, cs !! k = Some v -> exists n, v = Count n.

(** ** The wallet and the create modal *)

Definition setAccount (a : string) (w : World) : World :=
  {| chain := chain w; trace := trace w; console := console w;
     alerts := alerts w; account := a; provider := provider w;
     loading := loading w; records := records w;
     isRefreshing := isRefreshing w; creating := creating w;
     transactionStatus := transactionStatus w;
     newRecordData := newRecordData w; stats := stats w |}.

Definition setProvider (p : bool) (w : World) : World :=
  {| chain := chain w; trace := trace w; console := console w;
     alerts := alerts w; account := account w; provider := p;
     loading := loading w; records := records w;
     isRefreshing := isRefreshing w; creating := creating w;
     transactionStatus := transactionStatus w;
     newRecordData := newRecordData w; stats := stats w |}.

Definition setNewRecordData (d : NewRecordData) (w : World) : World :=
  {| chain := chain w; trace := trace w; console := console w;
     alerts := alerts w; account := account w; provider := provider w;
     loading := loading w; records := records w;
     isRefreshing := isRefreshing w; creating := creating w;
     transactionStatus := transactionStatus w;
     newRecordData := d; stats := stats w |}.

(** The [wallet] handed to [onWalletSelect], by what the function does
    with it: whether [wallet.provider] is set, and how the three calls on
    it end. *)
Record Wallet : Type := {
  wallet_provider : bool;                   (* wallet.provider is truthy *)
  browserProvider : outcome unit;           (* new ethers.BrowserProvider(_) *)
  requestAccounts : outcome (list string);  (* send("eth_requestAccounts", []) *)
  subscribe : outcome unit }.               (* wallet.provider.on(_, _) *)

(** [accounts[0] || ""] *)
Definition first_account (accounts : list string) : string :=
  match accounts with
  | a :: _ => a
  | [] => ""
  end.

Definition onWalletSelect (wallet : Wallet) (w : World) : World :=
  if negb (wallet_provider wallet) then w
  else
    match browserProvider wallet with
    | Throw _ => alert "Failed to connect wallet" w
    | Ok _ =>
        let w := setProvider true w in
        match requestAccounts wallet with
        | Throw _ => alert "Failed to connect wallet" w
        | Ok accounts =>
            let w := setAccount (first_account accounts) w in
            match subscribe wallet with
            | Throw _ => alert "Failed to connect wallet" w
            | Ok _ => w
            end
        end
    end.

(** The listener [onWalletSelect] registers for ["accountsChanged"]. *)
Definition onAccountsChanged (accounts : list string) (w : World) : World :=
  setAccount (first_account accounts) w.

Definition onDisconnect (w : World) : World :=
  setProvider false (setAccount "" w).

(** The [name] of the three inputs of [ModalCreate]. *)
Inductive field : Type := FCategory | FDescription | FSensitiveInfo.

(** [setRecordData({...recordData, [name]: value})] *)
Definition handleChange (name : field) (value : string) (w : World) : World :=
  let d := newRecordData w in
  setNewRecordData
    match name with
    | FCategory =>
        {| form_category := value; form_description := form_description d;
           form_sensitiveInfo := form_sensitiveInfo d |}
    | FDescription =>
        {| form_category := form_category d; form_description := value;
           form_sensitiveInfo := form_sensitiveInfo d |}
    | FSensitiveInfo =>
        {| form_category := form_category d;
           form_description := form_description d;
           form_sensitiveInfo := value |}
    end w.

(** [handleSubmit] of [ModalCreate], with [onSubmit] bound to
    [submitRecord]. *)
Definition handleSubmit (e : Env) (now1 : Z) (random : string) (now2 : Z)
    (w : World) : World :=
  if String.eqb (form_category (newRecordData w)) "" ||
     String.eqb (form_sensitiveInfo (newRecordData w)) ""
  then alert "Please fill required fields" w
  else submitRecord e now1 random now2 w.

(** ** More vocabulary *)

(** A status that is none of the three the counters know. *)
Definition other_status (r : EncryptedRecord) : bool :=
  negb (has_status "pending" r) && negb (has_status "verified" r) &&
  negb (has_status "rejected" r).


(** The record a create builds, as a load reads it back. *)
Definition created_record (recordId encryptedData : string) (seconds : Z)
    (account category : string) : EncryptedRecord :=
  {| id := JStr recordId;
     encryptedData := Some (JStr encryptedData);
     timestamp := Some (JNum seconds);
     owner := Some (JStr account);
     category := Some (JStr category);
     status := JStr "pending" |}.

Definition has_timestamp (t : Z) (r : EncryptedRecord) : bool :=
  match timestamp r with
  | Some (JNum x) => x =? t
  | _ => false
  end.

(** [calm], except that every transaction is turned down in the wallet. *)
Definition refusing : Env :=
  {| getContractReadOnly := Ok true;
     isAvailable := Ok true;
     read_error := fun _ => None;
     getContractWithSigner := Ok true;
     signer_read_error := fun _ => None;
     write_error := fun _ => Some "user rejected transaction (action=sendTransaction)";
     btoa_JSON := btoa_JSON calm;
     engine_message := engine_message calm;
     inherited_text := inherited_text calm |}.

(** [calm], except that the write of the index fails. *)
Definition index_locked : Env :=
  {| getContractReadOnly := Ok true;
     isAvailable := Ok true;
     read_error := fun _ => None;
     getContractWithSigner := Ok true;
     signer_read_error := fun _ => None;
     write_error := fun k =>
       if String.eqb k "record_keys" then Some "out of gas" else None;
     btoa_JSON := btoa_JSON calm;
     engine_message := engine_message calm;
     inherited_text := inherited_text calm |}.

(** [calm], with a contract that answers that it is not available. *)
Definition unavailable : Env :=
  {| getContractReadOnly := Ok true;
     isAvailable := Ok false;
     read_error := fun _ => None;
     getContractWithSigner := Ok true;
     signer_read_error := fun _ => None;
     write_error := fun _ => None;
     btoa_JSON := btoa_JSON calm;
     engine_message := engine_message calm;
     inherited_text := inherited_text calm |}.

(** A store whose index is a JSON object. *)
Definition object_index : gmap string bytes :=
  <["record_keys" := BytesJson (JObj [("r1", JBool true)])]> one_record.

(** A store with two records of the same timestamp and a later one
    between them in the index, and a record with a status of its own. *)
Definition tied_store : gmap string bytes :=
  <["record_keys" :=
      BytesJson (JArr [JStr "a"; JStr "z"; JStr "b"])]>
  (<["record_a" :=
       BytesJson (JObj [("data", JStr "FHE-eA=="); ("timestamp", JNum 1700000000);
                        ("owner", JStr "0xAb"); ("category", JStr "KYC");
                        ("status", JStr "archived")])]>
  (<["record_z" :=
       BytesJson (JObj [("data", JStr "FHE-eQ=="); ("timestamp", JNum 1700000900);
                        ("owner", JStr "0xAb"); ("category", JStr "KYC");
                        ("status", JStr "pending")])]>
  (<["record_b" :=
       BytesJson (JObj [("data", JStr "FHE-eg=="); ("timestamp", JNum 1700000000);
                        ("owner", JStr "0xCd"); ("category", JStr "Credit");
                        ("status", JBool false)])]> ∅))).

(** A wallet whose owner turns the account request down. *)
Definition declined : Wallet :=
  {| wallet_provider := true; browserProvider := Ok tt;
     requestAccounts := Throw "user rejected the request";
     subscribe := Ok tt |}.

(** Who is connected and what the form holds. *)
Definition session (w : World) := (account w, provider w, newRecordData w).

(** An asynchronous block that leaves the session alone, however it
    ends. *)
Definition keeps_session {A} (m : action A) : Prop :=
  forall w, session (m w).2 = session w.


(** A run of creates, each with its own clock readings and random
    suffix. *)
Definition submit_all (e : Env) (cs : list (Z * string * Z)) (w : World) : World :=
  foldl (fun w c => submitRecord e c.1.1 c.1.2 c.2 w) w cs.

Definition ids_of (cs : list (Z * string * Z)) : list json :=
  (fun c => JStr (new_id c.1.1 c.1.2)) <$> cs.

(** [calm], except that [btoa] refuses the text of the form. *)
Definition unencodable : Env :=
  {| getContractReadOnly := Ok true;
     isAvailable := Ok true;
     read_error := fun _ => None;
     getContractWithSigner := Ok true;
     signer_read_error := fun _ => None;
     write_error := fun _ => None;
     btoa_JSON := fun _ => Throw "Invalid character";
     engine_message := engine_message calm;
     inherited_text := inherited_text calm |}.

(** A store whose index names a record dated 1, a record without
    timestamp and a record dated 5, in that order. *)
Definition undated_store : gmap string bytes :=
  <["record_keys" :=
      BytesJson (JArr [JStr "early"; JStr "undated"; JStr "late"])]>
  (<["record_early" :=
       BytesJson (JObj [("data", JStr "FHE-eA=="); ("timestamp", JNum 1);
                        ("owner", JStr "0xAb"); ("category", JStr "KYC");
                        ("status", JStr "pending")])]>
  (<["record_undated" :=
       BytesJson (JObj [("data", JStr "FHE-eQ==");
                        ("owner", JStr "0xAb"); ("category", JStr "KYC");
                        ("status", JStr "pending")])]>
  (<["record_late" :=
       BytesJson (JObj [("data", JStr "FHE-eg=="); ("timestamp", JNum 5);
                        ("owner", JStr "0xAb"); ("category", JStr "KYC");
                        ("status", JStr "pending")])]> ∅))).

(** * Properties *)

(** ** Worlds that differ by console entries and calls *)

Lemma logged_nil (w : World) : logged [] [] w = w.
Proof. destruct w. unfold logged. cbn. by rewrite !app_nil_r. Qed.

Lemma logged_logged c1 t1 c2 t2 (w : World) :
  logged c2 t2 (logged c1 t1 w) = logged (c1 ++ c2) (t1 ++ t2) w.
Proof. destruct w. unfold logged. cbn. by rewrite !app_assoc. Qed.

Lemma logged_bystanders c t (w : World) :
  bystanders (logged c t w) = bystanders w.
Proof. reflexivity. Qed.

Lemma console_error_logged label message (w : World) :
  console_error label message w = logged [(label, message)] [] w.
Proof. destruct w. unfold logged, console_error. cbn. by rewrite app_nil_r. Qed.

Lemma with_trace_logged t (w : World) :
  with_trace (trace w ++ t) w = logged [] t w.
Proof. destruct w. unfold logged. cbn. by rewrite app_nil_r. Qed.

(** ** The loop of [loadRecords] *)

(** One turn of the loop is a fetch, at most one console entry, and the
    effect of the fetched record on the locals. *)
Lemma load_step_spec (e : Env) (w : World) (a : Locals) (key : json) :
  load_step e (w, a) key =
  (logged (option_list (failure_log e (chain w) key))
     [CallGetData (record_key (to_string key))] w,
   absorb e (chain w) a key).
Proof.
  unfold load_step, getData, absorb, fetch_record, failure_log, record_key.
  cbn [chain with_trace].
  destruct (read_error e _) as [message|].
  - rewrite console_error_logged, with_trace_logged, logged_logged. done.
  - destruct (default Bytes0 _) as [| |v]; cbn [nonempty JSON_parse].
    + by rewrite with_trace_logged.
    + by rewrite console_error_logged, with_trace_logged, logged_logged.
    + destruct (make_record key v).
      * by rewrite with_trace_logged.
      * by rewrite console_error_logged, with_trace_logged, logged_logged.
Qed.

Lemma load_loop_spec (e : Env) (ks : list json) (w : World) (a : Locals) :
  foldl (load_step e) (w, a) ks =
  (logged (omap (failure_log e (chain w)) ks)
     ((fun k => CallGetData (record_key (to_string k))) <$> ks) w,
   foldl (absorb e (chain w)) a ks).
Proof.
  revert w a. induction ks as [|k ks IH]; intros w a.
  - cbn. by rewrite logged_nil.
  - cbn [foldl]. rewrite load_step_spec, IH, logged_logged.
    cbn [chain logged with_console with_trace omap list_omap fmap list_fmap].
    f_equal. f_equal.
    destruct (failure_log e (chain w) k); reflexivity.
Qed.

Lemma tally_list (e : Env) (r : EncryptedRecord) (a : Locals) :
  l_list (tally e r a) = l_list a ++ [r].
Proof.
  unfold tally.
  by destruct (is_str (status r) "pending"), (is_str (status r) "verified"),
    (is_str (status r) "rejected").
Qed.

Lemma tally_categoryStats (e : Env) (r : EncryptedRecord) (a : Locals) :
  l_categoryStats (tally e r a) =
  count_category e (l_categoryStats a) (category r).
Proof.
  unfold tally.
  by destruct (is_str (status r) "pending"), (is_str (status r) "verified"),
    (is_str (status r) "rejected").
Qed.

(** The list grows by the records of the keys that load, in index
    order. *)
Lemma absorb_list (e : Env) (c : gmap string bytes) (ks : list json) (a : Locals) :
  l_list (foldl (absorb e c) a ks) = l_list a ++ omap (fetch_record e c) ks.
Proof.
  revert a. induction ks as [|k ks IH]; intros a; cbn.
  - by rewrite app_nil_r.
  - rewrite IH. unfold absorb. destruct (fetch_record e c k); cbn.
    + by rewrite tally_list, <- app_assoc.
    + done.
Qed.

Lemma is_str_exclusive (v : json) (s t : string) :
  s <> t -> is_str v s = true -> is_str v t = false.
Proof.
  destruct v; cbn; try done.
  intros Hne Hs. apply String.eqb_eq in Hs. subst.
  by apply String.eqb_neq.
Qed.

(** The three status counters count the loaded records by status. *)
Lemma absorb_counts (e : Env) (c : gmap string bytes) (ks : list json) (a : Locals) :
  let a' := foldl (absorb e c) a ks in
  let l := omap (fetch_record e c) ks in
  l_pending a' = (l_pending a + length (filter (fun r => has_status "pending" r = true) l))%nat /\
  l_verified a' = (l_verified a + length (filter (fun r => has_status "verified" r = true) l))%nat /\
  l_rejected a' = (l_rejected a + length (filter (fun r => has_status "rejected" r = true) l))%nat.
Proof.
  revert a. induction ks as [|k ks IH]; intros a; cbn.
  - lia.
  - unfold absorb at 2 4 6. destruct (fetch_record e c k) as [r|]; [|apply IH].
    destruct (IH (tally e r a)) as (Hp & Hv & Hr).
    rewrite Hp, Hv, Hr. unfold tally.
    rewrite !filter_cons. unfold has_status.
    destruct (is_str (status r) "pending") eqn:Ep.
    + rewrite (is_str_exclusive _ "pending" "verified"),
        (is_str_exclusive _ "pending" "rejected") by done.
      repeat case_decide; try done; cbn; lia.
    + destruct (is_str (status r) "verified") eqn:Ev.
      * rewrite (is_str_exclusive _ "verified" "rejected") by done.
        repeat case_decide; try done; cbn; lia.
      * destruct (is_str (status r) "rejected") eqn:Er;
          repeat case_decide; try done; cbn; lia.
Qed.


(** ** The sort *)

Lemma sort_insert_perm {A} (compare : A -> A -> option Z) (x : A) (l : list A) :
  sort_insert compare x l ≡ₚ x :: l.
Proof.
  induction l as [|y l IH]; cbn; [done|].
  destruct (goes_after compare x y); [|done].
  rewrite IH. apply perm_swap.
Qed.

Lemma Array_sort_perm {A} (compare : A -> A -> option Z) (l : list A) :
  Array_sort compare l ≡ₚ l.
Proof.
  induction l as [|x l IH]; cbn; [done|].
  fold (Array_sort compare l). by rewrite sort_insert_perm, IH.
Qed.

Lemma goes_after_numeric (a b : EncryptedRecord) (x y : Z) :
  timestamp a = Some (JNum x) -> timestamp b = Some (JNum y) ->
  goes_after by_timestamp a b = (x <? y).
Proof.
  intros Ha Hb. unfold goes_after, by_timestamp, js_minus.
  rewrite Ha, Hb. cbn.
  destruct (x <? y) eqn:E; [apply Z.ltb_lt in E | apply Z.ltb_ge in E].
  - apply Z.ltb_lt. lia.
  - apply Z.ltb_ge. lia.
Qed.

Lemma not_older_trans (a b c : EncryptedRecord) :
  not_older a b -> not_older b c -> not_older a c.
Proof.
  intros (x & y & Ha & Hb & Hxy) (y' & z & Hb' & Hc & Hyz).
  rewrite Hb in Hb'. injection Hb' as <-.
  exists x, z. repeat split; [done..|lia].
Qed.

Lemma sort_insert_sorted (x : EncryptedRecord) (l : list EncryptedRecord) :
  numeric_timestamp x -> Forall numeric_timestamp l ->
  StronglySorted not_older l ->
  StronglySorted not_older (sort_insert by_timestamp x l).
Proof.
  intros [tx Hx] Hnum Hs. induction Hs as [|y l Hs IH Hy]; cbn.
  - repeat constructor.
  - apply Forall_cons in Hnum as [[ty Hty] Hnum].
    rewrite (goes_after_numeric _ _ _ _ Hx Hty).
    destruct (tx <? ty) eqn:E; [apply Z.ltb_lt in E | apply Z.ltb_ge in E].
    + constructor; [by apply IH|].
      rewrite sort_insert_perm. constructor; [|done].
      exists ty, tx. repeat split; [done..|lia].
    + assert (Hxy : not_older x y) by (exists tx, ty; done).
      constructor; [by constructor|].
      constructor; [done|].
      eapply Forall_impl; [exact Hy|].
      intros z Hz. by eapply not_older_trans.
Qed.

Lemma Array_sort_sorted (l : list EncryptedRecord) :
  Forall numeric_timestamp l ->
  StronglySorted not_older (Array_sort by_timestamp l).
Proof.
  induction 1 as [|x l Hx Hl IH]; cbn; [constructor|].
  fold (Array_sort by_timestamp l).
  apply sort_insert_sorted; [done| |done].
  by rewrite Array_sort_perm.
Qed.

(** ** What a load that reaches the index computes *)

Lemma load_tail (e : Env) (w : World) (ks : list json) c0 t0 :
  exists c t,
    (let '(w1, a) := foldl (load_step e) (logged c0 t0 w, no_locals) ks in
     summary a w1) =
    summary (foldl (absorb e (chain w)) no_locals ks) (logged c t w) /\
    forall k, k ∈ ks -> forall entry,
      failure_log e (chain w) k = Some entry -> entry ∈ c.
Proof.
  rewrite load_loop_spec, logged_logged.
  cbn [chain logged with_console with_trace].
  eexists _, _. split; [reflexivity|].
  intros k Hk entry He. apply elem_of_app. right.
  apply list_elem_of_omap. eauto.
Qed.

Lemma loadRecords_try_reached (e : Env) (w : World) (ks : list json) :
  getContractReadOnly e = Ok true ->
  isAvailable e = Ok true ->
  read_error e "record_keys" = None ->
  index_keys (chain w) = Some ks ->
  exists c t,
    loadRecords_try e w =
    summary (foldl (absorb e (chain w)) no_locals ks) (logged c t w) /\
    forall k, k ∈ ks -> forall entry,
      failure_log e (chain w) k = Some entry -> entry ∈ c.
Proof.
  intros Hro Hav Hrd Hix. unfold loadRecords_try, getData, index_keys in *.
  rewrite Hro, Hav. cbv zeta. rewrite !with_trace_logged, logged_logged.
  cbn [chain logged with_console with_trace]. rewrite Hrd.
  destruct (default Bytes0 (chain w !! "record_keys")) as [| |v] eqn:Eb;
    cbn [parse_keys nonempty JSON_parse].
  - injection Hix as <-. cbn [iterate]. apply load_tail.
  - injection Hix as <-. cbn [iterate].
    rewrite console_error_logged, logged_logged. apply load_tail.
  - rewrite Hix. apply load_tail.
Qed.

(** A load never touches the store, the alerts, the banner, the account
    or the form, whatever the environment does. *)
Lemma loadRecords_bystanders (e : Env) (w : World) :
  bystanders (loadRecords e w) = bystanders w.
Proof.
  unfold loadRecords, loadRecords_try, getData, parse_keys. cbv zeta.
  destruct (getContractReadOnly e) as [[|]|]; [|done..].
  destruct (isAvailable e) as [[|]|]; [|done..].
  cbn [chain with_trace setIsRefreshing]. 
  destruct (read_error e "record_keys"); [done|].
  set (w0 := with_trace _ _).
  assert (H0 : bystanders w0 = bystanders w) by done.
  assert (Hloop : forall w1 v, bystanders w1 = bystanders w ->
    bystanders (setLoading false (setIsRefreshing false
      match iterate v with
      | Some ks =>
          let '(w2, a) := foldl (load_step e) (w1, no_locals) ks in
          let list := Array_sort by_timestamp (l_list a) in
          let w3 := setRecords list w2 in
          setStats {| totalRecords := length list; pending := l_pending a;
                      verified := l_verified a; rejected := l_rejected a;
                      categoryStats := l_categoryStats a |} w3
      | None => console_error "Error loading records:"
                  (engine_message e NotIterable) w1
      end)) = bystanders w).
  { intros w1 v H1. destruct (iterate v) as [ks|]; [|done].
    rewrite load_loop_spec. done. }
  destruct (default Bytes0 (chain w !! "record_keys")) as [| |v];
    cbn [nonempty JSON_parse]; by apply Hloop.
Qed.



Lemma loadRecords_chain (e : Env) (w : World) :
  chain (loadRecords e w) = chain w.
Proof.
  pose proof (loadRecords_bystanders e w) as H. unfold bystanders in H.
  by injection H.
Qed.

Lemma loadRecords_banner (e : Env) (w : World) :
  transactionStatus (loadRecords e w) = transactionStatus w.
Proof.
  pose proof (loadRecords_bystanders e w) as H. unfold bystanders in H.
  by injection H.
Qed.

Lemma loadRecords_alerts (e : Env) (w : World) :
  alerts (loadRecords e w) = alerts w.
Proof.
  pose proof (loadRecords_bystanders e w) as H. unfold bystanders in H.
  by injection H.
Qed.

(** ** Loading *)

(** The statements about a load that gets as far as the loop share
    their assumptions: the read-only contract is obtained and available,
    the fetch of the index does not throw, and [ks] are the keys the
    stored index makes the loop walk through. *)
Section Reached.

Variables (e : Env) (w : World) (ks : list json).
Hypothesis contract_obtained : getContractReadOnly e = Ok true.
Hypothesis contract_available : isAvailable e = Ok true.
Hypothesis index_fetched : read_error e "record_keys" = None.
Hypothesis index_walked : index_keys (chain w) = Some ks.

Lemma loadRecords_reached :
  records (loadRecords e w) = Array_sort by_timestamp (loaded e w ks) /\
  stats (loadRecords e w) =
    {| totalRecords := length (loaded e w ks);
       pending := length (filter (fun r => has_status "pending" r = true) (loaded e w ks));
       verified := length (filter (fun r => has_status "verified" r = true) (loaded e w ks));
       rejected := length (filter (fun r => has_status "rejected" r = true) (loaded e w ks));
       categoryStats := l_categoryStats (foldl (absorb e (chain w)) no_locals ks) |} /\
  bystanders (loadRecords e w) = bystanders w /\
  (forall k, k ∈ ks -> forall entry,
     failure_log e (chain w) k = Some entry -> entry ∈ console (loadRecords e w)).
Proof.
  unfold loadRecords. cbv zeta.
  destruct (loadRecords_try_reached e (setIsRefreshing true w) ks
              contract_obtained contract_available index_fetched index_walked)
    as (c & t & -> & Hlog).
  cbn [chain setIsRefreshing] in *.
  destruct (absorb_counts e (chain w) ks no_locals) as (Hp & Hv & Hr).
  cbv zeta in Hp, Hv, Hr. cbn [no_locals l_pending l_verified l_rejected] in *.
  pose proof (absorb_list e (chain w) ks no_locals) as Hl.
  cbn [no_locals l_list app] in Hl.
  unfold summary, loaded. cbv zeta. rewrite Hl, Hp, Hv, Hr.
  cbn [records stats bystanders setStats setRecords setLoading setIsRefreshing
       logged with_console with_trace chain alerts account provider creating
       transactionStatus newRecordData console].
  split; [done|]. split.
  { f_equal. by rewrite Array_sort_perm. }
  split; [done|].
  intros k Hk entry He. apply elem_of_app. right. eauto.
Qed.


(** C6, amended.  Whenever the timestamps of the records that loaded are
    numbers, as the [EncryptedRecord] interface has it, the list a load
    produces is in descending order of timestamp (every record is at
    least as recent as each record after it) and is a rearrangement of
    those records. *)
Theorem load_sorted_by_timestamp :
  Forall numeric_timestamp (loaded e w ks) ->
  StronglySorted not_older (records (loadRecords e w)) /\
  records (loadRecords e w) ≡ₚ loaded e w ks.
Proof.
  intros Hnum. destruct loadRecords_reached as (-> & _).
  split; [by apply Array_sort_sorted | apply Array_sort_perm].
Qed.

End Reached.


(** [mixed_store] loaded in the calm environment: three records. *)
Lemma load_sorted_by_timestamp_witness :
  StronglySorted not_older (records (loadRecords calm (mounted mixed_store "0xAb"))) /\
  records (loadRecords calm (mounted mixed_store "0xAb")) ≡ₚ
    loaded calm (mounted mixed_store "0xAb")
      [JStr "old"; JStr "bad"; JStr "gone"; JStr "new"].
Proof.
  apply (load_sorted_by_timestamp calm (mounted mixed_store "0xAb")
           [JStr "old"; JStr "bad"; JStr "gone"; JStr "new"]);
    [reflexivity..|].
  vm_compute. repeat constructor; eexists; reflexivity.
Defined.

(** C6, as stated, fails: a stored record without timestamp parses and
    is listed like any other, every comparison with it is NaN, and the
    three records of [undated_store] stay in the order of the index, the
    record dated 1 ahead of the record dated 5. *)
Lemma load_unsorted_without_timestamp :
  length (loaded calm (mounted undated_store "0xAb")
            [JStr "early"; JStr "undated"; JStr "late"]) = 3%nat /\
  (id <$> records (loadRecords calm (mounted undated_store "0xAb"))) =
    [JStr "early"; JStr "undated"; JStr "late"] /\
  (timestamp <$> records (loadRecords calm (mounted undated_store "0xAb"))) =
    [Some (JNum 1); None; Some (JNum 5)] /\
  ~ StronglySorted not_older
      (records (loadRecords calm (mounted undated_store "0xAb"))).
Proof.
  split; [reflexivity|]. split; [reflexivity|]. split; [reflexivity|].
  intros Hsorted. vm_compute in Hsorted.
  apply StronglySorted_inv in Hsorted as [_ Hfirst].
  apply Forall_cons in Hfirst as [(x & y & _ & Hy & _) _].
  discriminate Hy.
Qed.

(** The order in which the three records of [mixed_store] come out. *)
Example load_mixed_store_order :
  id <$> records (loadRecords calm (mounted mixed_store "0xAb")) =
  [JStr "new"; JStr "gone"; JStr "old"].
Proof. reflexivity. Qed.

(** C7.  Loading when the stored index is empty, be it an empty byte
    string or an empty JSON array, yields no records and statistics that
    are all zero, with no category counted. *)
Theorem load_empty_index (e : Env) (w : World) :
  getContractReadOnly e = Ok true ->
  isAvailable e = Ok true ->
  read_error e "record_keys" = None ->
  default Bytes0 (chain w !! "record_keys") = Bytes0 \/
  default Bytes0 (chain w !! "record_keys") = BytesJson (JArr []) ->
  records (loadRecords e w) = [] /\
  totalRecords (stats (loadRecords e w)) = 0%nat /\
  pending (stats (loadRecords e w)) = 0%nat /\
  verified (stats (loadRecords e w)) = 0%nat /\
  rejected (stats (loadRecords e w)) = 0%nat /\
  categoryStats (stats (loadRecords e w)) = ∅.
Proof.
  intros Hro Hav Hrd Hix.
  assert (Hks : index_keys (chain w) = Some []).
  { unfold index_keys. by destruct Hix as [-> | ->]. }
  destruct (loadRecords_reached e w [] Hro Hav Hrd Hks) as (-> & -> & _).
  done.
Qed.

(** An empty store, loaded in the calm environment. *)
Lemma load_empty_index_witness :
  records (loadRecords calm (mounted ∅ "0xAb")) = [] /\
  totalRecords (stats (loadRecords calm (mounted ∅ "0xAb"))) = 0%nat /\
  pending (stats (loadRecords calm (mounted ∅ "0xAb"))) = 0%nat /\
  verified (stats (loadRecords calm (mounted ∅ "0xAb"))) = 0%nat /\
  rejected (stats (loadRecords calm (mounted ∅ "0xAb"))) = 0%nat /\
  categoryStats (stats (loadRecords calm (mounted ∅ "0xAb"))) = ∅.
Proof.
  apply (load_empty_index calm (mounted ∅ "0xAb")); [reflexivity..|].
  left. reflexivity.
Defined.

(** C2, as stated, fails: when the fetch of the index throws on a reload,
    the list loaded before stays on screen. *)
Lemma load_index_failure_keeps_list :
  read_error index_unreachable "record_keys" = Some "network error" /\
  records (loadRecords index_unreachable seen) <> [].
Proof. split; [reflexivity | vm_compute; discriminate]. Qed.

(** C2, amended.  When the fetch of the index throws, the load makes no
    further call (the index is fetched once), writes one console entry,
    and leaves records, statistics, alerts, banner and store as they
    were; the list is empty afterwards exactly when it was before, as at
    the first load. *)
Theorem load_index_failure_unchanged (e : Env) (w : World) (message : string) :
  getContractReadOnly e = Ok true ->
  isAvailable e = Ok true ->
  read_error e "record_keys" = Some message ->
  let w' := loadRecords e w in
  records w' = records w /\
  stats w' = stats w /\
  alerts w' = alerts w /\
  transactionStatus w' = transactionStatus w /\
  chain w' = chain w /\
  console w' = console w ++ [("Error loading records:", message)] /\
  trace w' = trace w ++ [CallIsAvailable; CallGetData "record_keys"] /\
  isRefreshing w' = false /\
  loading w' = false.
Proof.
  intros Hro Hav Hrd. unfold loadRecords, loadRecords_try, getData.
  rewrite Hro, Hav. cbn. rewrite Hrd. cbn.
  by rewrite <- app_assoc.
Qed.

(** The reload of [seen] while the index cannot be fetched. *)
Lemma load_index_failure_unchanged_witness :
  records (loadRecords index_unreachable seen) = records seen /\
  console (loadRecords index_unreachable seen) =
    console seen ++ [("Error loading records:", "network error")].
Proof.
  destruct (load_index_failure_unchanged index_unreachable seen "network error")
    as (Hrec & _ & _ & _ & _ & Hcon & _); [reflexivity..|].
  split; [exact Hrec | exact Hcon].
Defined.

(** ** Status updates *)

(** Unfolds the sequencing of an asynchronous block down to the calls it
    makes. *)
Ltac run_block :=
  unfold contractWithSigner, bind, lift, ret, throw, modify, get,
    getData, setData, JSON_bytes.

(** The [try] block of a status update, case by case. *)
Lemma update_try_cases (e : Env) (newStatus success recordId : string) (w : World) :
  update_try e newStatus success recordId w =
  match getContractWithSigner e with
  | Throw message => (Throw message, w)
  | Ok false => (Throw "Failed to get contract with signer", w)
  | Ok true =>
      let w1 := with_trace (trace w ++ [CallGetData (record_key recordId)]) w in
      match signer_read_error e (record_key recordId) with
      | Some message => (Throw message, w1)
      | None =>
          match default Bytes0 (chain w !! record_key recordId) with
          | Bytes0 => (Throw "Record not found", w1)
          | BytesBad => (Throw (engine_message e SyntaxErr), w1)
          | BytesJson v =>
              let value :=
                BytesJson (JObj (obj_set "status" (JStr newStatus) (spread v))) in
              let w2 :=
                with_trace (trace w1 ++ [CallSetData (record_key recordId) value]) w1 in
              match write_error e (record_key recordId) with
              | Some message => (Throw message, w2)
              | None =>
                  (Ok tt,
                   loadRecords e
                     (setTransactionStatus (banner TxSuccess success)
                        (with_chain (<[record_key recordId := value]> (chain w)) w2)))
              end
          end
      end
  end.
Proof.
  unfold update_try, record_key. run_block.
  destruct (getContractWithSigner e) as [[|]|]; [|done..].
  cbn [chain with_trace].
  destruct (signer_read_error e _); [done|].
  destruct (default Bytes0 _) as [| |v]; cbn [nonempty JSON_parse]; [done..|].
  destruct (write_error e _); done.
Qed.

(** A status update either leaves the store alone or overwrites the one
    key of its record with the stored value in which [status] has been
    set. *)
Lemma update_chain (e : Env) (newStatus success failure recordId : string) (w : World) :
  chain (update e newStatus success failure recordId w) = chain w \/
  exists v,
    default Bytes0 (chain w !! record_key recordId) = BytesJson v /\
    chain (update e newStatus success failure recordId w) =
    <[record_key recordId :=
        BytesJson (JObj (obj_set "status" (JStr newStatus) (spread v)))]> (chain w).
Proof.
  unfold update. destruct (provider w); cbn [negb]; [|by left].
  rewrite update_try_cases. cbv zeta.
  destruct (getContractWithSigner e) as [[|]|]; [|by left..].
  destruct (signer_read_error e _); [by left|].
  cbn [chain setTransactionStatus with_trace].
  destruct (default Bytes0 _) as [| |v] eqn:Ev; [by left..|].
  destruct (write_error e _); [by left|].
  right. exists v. split; [done|].
  by rewrite loadRecords_chain.
Qed.

Lemma update_missing (e : Env) (newStatus success failure recordId : string)
    (w : World) :
  default Bytes0 (chain w !! record_key recordId) = Bytes0 ->
  let w' := update e newStatus success failure recordId w in
  chain w' = chain w /\
  (exists t, trace w' = trace w ++ t /\ forallb (fun c => negb (is_write c)) t = true) /\
  records w' = records w /\
  stats w' = stats w /\
  (alerts w' = alerts w ++ ["Please connect wallet first"] \/
   visible (transactionStatus w') = true /\ tx (transactionStatus w') = TxError) /\
  (provider w = true -> getContractWithSigner e = Ok true ->
   signer_read_error e (record_key recordId) = None ->
   transactionStatus w' = banner TxError (failure +:+ "Record not found") /\
   alerts w' = alerts w /\
   trace w' = trace w ++ [CallGetData (record_key recordId)]).
Proof.
  intros Hempty. unfold update. destruct (provider w); cbn [negb].
  - rewrite update_try_cases. cbv zeta.
    cbn [chain setTransactionStatus with_trace trace].
    rewrite Hempty.
    destruct (getContractWithSigner e) as [[|]|].
    + destruct (signer_read_error e _).
      * repeat split; try done; [by exists [CallGetData (record_key recordId)] | by right].
      * repeat split; try done; [by exists [CallGetData (record_key recordId)] | by right].
    + repeat split; try done; [exists []; by rewrite app_nil_r | by right].
    + repeat split; try done; [exists []; by rewrite app_nil_r | by right].
  - repeat split; try done; [exists []; by rewrite app_nil_r | by left].
Qed.

(** C4.  A status update on an id whose stored bytes are empty performs
    no write and leaves the store, the record list and the statistics
    unchanged; the user is told, by the alert that asks for a wallet or
    by an error banner, which reads "Record not found" behind the prefix
    of the action once the signer's contract has answered the read. *)
Theorem status_update_on_missing_record (e : Env) (r : request) (w : World) :
  default Bytes0 (chain w !! record_key (target r)) = Bytes0 ->
  let w' := serve e r w in
  chain w' = chain w /\
  (exists t, trace w' = trace w ++ t /\ forallb (fun c => negb (is_write c)) t = true) /\
  records w' = records w /\
  stats w' = stats w /\
  (alerts w' = alerts w ++ ["Please connect wallet first"] \/
   visible (transactionStatus w') = true /\ tx (transactionStatus w') = TxError) /\
  (provider w = true -> getContractWithSigner e = Ok true ->
   signer_read_error e (record_key (target r)) = None ->
   transactionStatus w' = banner TxError (failure_prefix r +:+ "Record not found") /\
   alerts w' = alerts w /\
   trace w' = trace w ++ [CallGetData (record_key (target r))]).
Proof.
  destruct r as [recordId|recordId]; cbn [target serve failure_prefix];
    apply update_missing.
Qed.

(** No record is stored under [r2]. *)
Lemma status_update_on_missing_record_witness :
  chain (verifyRecord calm "r2" seen) = chain seen /\
  transactionStatus (verifyRecord calm "r2" seen) =
    banner TxError "Verification failed: Record not found" /\
  transactionStatus (rejectRecord calm "r2" seen) =
    banner TxError "Rejection failed: Record not found".
Proof.
  destruct (status_update_on_missing_record calm (Verify "r2") seen)
    as (Hch & _ & _ & _ & _ & Hmsg); [reflexivity|].
  destruct (status_update_on_missing_record calm (Reject "r2") seen)
    as (_ & _ & _ & _ & _ & Hmsg'); [reflexivity|].
  split; [exact Hch|]. split.
  - apply Hmsg; reflexivity.
  - apply Hmsg'; reflexivity.
Defined.

Lemma obj_get_set_eq (k : string) (v : json) (o : list (string * json)) :
  obj_get k (obj_set k v o) = Some v.
Proof.
  induction o as [|[k' v'] o IH]; cbn.
  - by rewrite String.eqb_refl.
  - destruct (String.eqb k k') eqn:E; cbn; rewrite ?String.eqb_refl, ?E; done.
Qed.

Lemma obj_get_set_ne (name k : string) (v : json) (o : list (string * json)) :
  name <> k -> obj_get name (obj_set k v o) = obj_get name o.
Proof.
  intros Hne. induction o as [|[k' v'] o IH]; cbn.
  - by apply String.eqb_neq in Hne as ->.
  - destruct (String.eqb k k') eqn:E; cbn.
    + apply String.eqb_eq in E as <-.
      by apply String.eqb_neq in Hne as ->.
    + by rewrite IH.
Qed.

Lemma record_key_inj (a b : string) : record_key a = record_key b -> a = b.
Proof. unfold record_key. intros H. vm_compute in H. by injection H. Qed.

Lemma update_existing (e : Env) (newStatus success failure recordId : string)
    (w : World) (o : list (string * json)) :
  default Bytes0 (chain w !! record_key recordId) = BytesJson (JObj o) ->
  let w' := update e newStatus success failure recordId w in
  (forall name, name <> "status" ->
     stored_field (chain w') recordId name = Some (obj_get name o)) /\
  (forall key, key <> record_key recordId -> chain w' !! key = chain w !! key) /\
  (provider w = true -> getContractWithSigner e = Ok true ->
   signer_read_error e (record_key recordId) = None ->
   write_error e (record_key recordId) = None ->
   chain w' =
     <[record_key recordId :=
         BytesJson (JObj (obj_set "status" (JStr newStatus) o))]> (chain w) /\
   stored_field (chain w') recordId "status" = Some (Some (JStr newStatus))).
Proof.
  intros Hrec w'. subst w'.
  assert (Hset : forall c : gmap string bytes,
    c = <[record_key recordId :=
            BytesJson (JObj (obj_set "status" (JStr newStatus) o))]> (chain w) ->
    (forall name, name <> "status" ->
       stored_field c recordId name = Some (obj_get name o)) /\
    (forall key, key <> record_key recordId -> c !! key = chain w !! key) /\
    stored_field c recordId "status" = Some (Some (JStr newStatus))).
  { intros c ->. unfold stored_field. rewrite lookup_insert_eq. cbn.
    split; [|split].
    - intros name Hne. by rewrite obj_get_set_ne.
    - intros key Hne. by rewrite lookup_insert_ne.
    - by rewrite obj_get_set_eq. }
  split; [|split].
  - intros name Hne.
    destruct (update_chain e newStatus success failure recordId w)
      as [-> | (v & Hv & Hc)].
    + unfold stored_field. by rewrite Hrec.
    + rewrite Hrec in Hv. injection Hv as <-. by apply (Hset _ Hc).
  - intros key Hne.
    destruct (update_chain e newStatus success failure recordId w)
      as [-> | (v & Hv & Hc)]; [done|].
    rewrite Hrec in Hv. injection Hv as <-. by apply (Hset _ Hc).
  - intros Hpr Hsig Hrd Hwr.
    assert (Hc : chain (update e newStatus success failure recordId w) =
      <[record_key recordId :=
          BytesJson (JObj (obj_set "status" (JStr newStatus) o))]> (chain w)).
    { unfold update. rewrite Hpr. cbn [negb]. rewrite update_try_cases.
      cbv zeta. cbn [chain setTransactionStatus with_trace].
      rewrite Hsig, Hrd, Hrec, Hwr. by rewrite loadRecords_chain. }
    split; [done|]. by apply (Hset _ Hc).
Qed.



(** ** Creation *)

Lemma Z_to_string_head (n : Z) :
  exists c s, Z_to_string n = String c s /\ c <> "k"%char.
Proof.
  unfold Z_to_string. destruct (Z.to_int n) as [d|d]; cbn.
  - destruct d; cbn; eexists _, _; (split; [reflexivity|discriminate]).
  - eexists _, _; (split; [reflexivity|discriminate]).
Qed.

(** The key of a created record is never the key of the index. *)
Lemma new_key_not_index (now1 : Z) (random : string) :
  record_key (new_id now1 random) <> "record_keys".
Proof.
  unfold record_key, new_id.
  destruct (Z_to_string_head now1) as (c & s & -> & Hc).
  intros H. vm_compute in H. congruence.
Qed.

Lemma submitRecord_try_success (e : Env) (now1 : Z) (random : string) (now2 : Z)
    (w : World) (b64 : string) (ks : list json) :
  btoa_JSON e (newRecordData w) = Ok b64 ->
  getContractWithSigner e = Ok true ->
  write_error e (record_key (new_id now1 random)) = None ->
  signer_read_error e "record_keys" = None ->
  write_error e "record_keys" = None ->
  keys_before (chain w) = Some ks ->
  let recordData :=
    new_recordData ("FHE-" +:+ b64) (now2 / 1000) (account w)
      (form_category (newRecordData w)) in
  let index := BytesJson (JArr (ks ++ [JStr (new_id now1 random)])) in
  exists w1,
    submitRecord_try e now1 random now2 w = (Ok tt, loadRecords e w1) /\
    chain w1 =
      <["record_keys" := index]>
        (<[record_key (new_id now1 random) := BytesJson recordData]> (chain w)) /\
    transactionStatus w1 = banner TxSuccess "Encrypted data submitted securely!" /\
    alerts w1 = alerts w /\
    trace w1 = trace w ++
      [CallSetData (record_key (new_id now1 random)) (BytesJson recordData);
       CallGetData "record_keys"; CallSetData "record_keys" index] /\
    console w1 = console w ++
      match default Bytes0 (chain w !! "record_keys") with
      | BytesBad => [("Error parsing keys:", engine_message e SyntaxErr)]
      | _ => []
      end.
Proof.
  intros Hb64 Hsig Hw1 Hrd Hw2 Hks. cbv zeta.
  unfold submitRecord_try. run_block.
  fold (record_key (new_id now1 random)).
  rewrite Hb64, Hsig, Hw1.
  cbn [chain trace with_trace with_chain]. rewrite Hrd.
  rewrite lookup_insert_ne by apply new_key_not_index.
  unfold keys_before in Hks. unfold parse_keys.
  destruct (default Bytes0 (chain w !! "record_keys")) as [| |v];
    cbn [nonempty JSON_parse].
  - injection Hks as <-. cbn [push app].
    cbn [chain trace with_trace with_chain]. rewrite Hw2.
    eexists. split; [reflexivity|]. cbn. rewrite <- !app_assoc, app_nil_r. done.
  - injection Hks as <-. cbn [push app].
    cbn [chain trace with_trace with_chain console_error with_console]. rewrite Hw2.
    eexists. split; [reflexivity|]. cbn. rewrite <- !app_assoc. done.
  - destruct v; try done. injection Hks as <-. cbn [push].
    cbn [chain trace with_trace with_chain]. rewrite Hw2.
    eexists. split; [reflexivity|]. cbn. rewrite <- !app_assoc, app_nil_r. done.
Qed.

(** A load only adds to the console and to the calls made. *)
Lemma loadRecords_extends (e : Env) (w : World) :
  exists c t,
    console (loadRecords e w) = console w ++ c /\
    trace (loadRecords e w) = trace w ++ t.
Proof.
  unfold loadRecords, loadRecords_try, getData, parse_keys. cbv zeta.
  destruct (getContractReadOnly e) as [[|]|]; cycle 1.
  { exists [], []. cbn. by rewrite !app_nil_r. }
  { eexists [_], []. cbn. by rewrite !app_nil_r. }
  destruct (isAvailable e) as [[|]|]; cycle 1.
  { eexists [_], [_]. by cbn. }
  { eexists [_], [_]. by cbn. }
  cbn [chain with_trace setIsRefreshing].
  destruct (read_error e "record_keys").
  { eexists [_], [_; _]. cbn. by rewrite <- app_assoc. }
  rewrite !with_trace_logged.
  assert (Hloop : forall c0 t0 v,
    exists c t,
      let w' := setLoading false (setIsRefreshing false
        match iterate v with
        | Some ks =>
            let '(w2, a) :=
              foldl (load_step e) (logged c0 t0 (setIsRefreshing true w), no_locals) ks in
            let list := Array_sort by_timestamp (l_list a) in
            let w3 := setRecords list w2 in
            setStats {| totalRecords := length list; pending := l_pending a;
                        verified := l_verified a; rejected := l_rejected a;
                        categoryStats := l_categoryStats a |} w3
        | None => console_error "Error loading records:"
                    (engine_message e NotIterable)
                    (logged c0 t0 (setIsRefreshing true w))
        end) in
      console w' = console w ++ c /\ trace w' = trace w ++ t).
  { intros c0 t0 v. destruct (iterate v) as [ks|].
    - rewrite load_loop_spec, logged_logged. eexists _, _. by cbn.
    - rewrite console_error_logged, logged_logged. eexists _, _. by cbn. }
  cbn [trace setIsRefreshing logged with_trace with_console console].
  destruct (default Bytes0 (chain w !! "record_keys")) as [| |v];
    cbn [nonempty JSON_parse].
  - destruct (Hloop [] [CallIsAvailable; CallGetData "record_keys"] (JArr []))
      as (c & t & H). exists c, t. revert H. cbv zeta.
    unfold logged. cbn. by rewrite !app_nil_r, <- !app_assoc.
  - destruct (Hloop [("Error parsing record keys:", engine_message e SyntaxErr)]
                [CallIsAvailable; CallGetData "record_keys"] (JArr []))
      as (c & t & H). exists c, t. revert H. cbv zeta.
    unfold logged, console_error. cbn. by rewrite !app_nil_r, <- !app_assoc.
  - destruct (Hloop [] [CallIsAvailable; CallGetData "record_keys"] v)
      as (c & t & H). exists c, t. revert H. cbv zeta.
    unfold logged. cbn. by rewrite !app_nil_r, <- !app_assoc.
Qed.

Lemma submitRecord_success (e : Env) (now1 : Z) (random : string) (now2 : Z)
    (w : World) (b64 : string) (ks : list json) :
  provider w = true ->
  btoa_JSON e (newRecordData w) = Ok b64 ->
  getContractWithSigner e = Ok true ->
  write_error e (record_key (new_id now1 random)) = None ->
  signer_read_error e "record_keys" = None ->
  write_error e "record_keys" = None ->
  keys_before (chain w) = Some ks ->
  let recordData :=
    new_recordData ("FHE-" +:+ b64) (now2 / 1000) (account w)
      (form_category (newRecordData w)) in
  let index := BytesJson (JArr (ks ++ [JStr (new_id now1 random)])) in
  let w' := submitRecord e now1 random now2 w in
  chain w' =
    <["record_keys" := index]>
      (<[record_key (new_id now1 random) := BytesJson recordData]> (chain w)) /\
  transactionStatus w' = banner TxSuccess "Encrypted data submitted securely!" /\
  alerts w' = alerts w /\
  (exists rest,
     trace w' = trace w ++
       [CallSetData (record_key (new_id now1 random)) (BytesJson recordData);
        CallGetData "record_keys"; CallSetData "record_keys" index] ++ rest) /\
  (exists rest,
     console w' = console w ++
       match default Bytes0 (chain w !! "record_keys") with
       | BytesBad => [("Error parsing keys:", engine_message e SyntaxErr)]
       | _ => []
       end ++ rest) /\
  (getContractReadOnly e = Ok true -> isAvailable e = Ok true ->
   read_error e "record_keys" = None ->
   records w' =
     Array_sort by_timestamp
       (omap (fetch_record e (chain w')) (ks ++ [JStr (new_id now1 random)]))).
Proof.
  intros Hpr Hb64 Hsig Hw1 Hrd Hw2 Hks. cbv zeta.
  unfold submitRecord. rewrite Hpr. cbn [negb].
  destruct (submitRecord_try_success e now1 random now2
              (setTransactionStatus
                 (banner TxPending "Encrypting sensitive data with Zama FHE...")
                 (setCreating true w)) b64 ks Hb64 Hsig Hw1 Hrd Hw2 Hks)
    as (w1 & -> & Hch & Htx & Hal & Htr & Hco).
  cbn [chain account newRecordData alerts trace console transactionStatus
       records setTransactionStatus setCreating] in *.
  rewrite loadRecords_chain, loadRecords_banner, loadRecords_alerts.
  destruct (loadRecords_extends e w1) as (c & t & Hc & Ht).
  split; [done|]. split; [done|]. split; [done|].
  split; [exists t; by rewrite Ht, Htr, <- app_assoc|].
  split; [exists c; by rewrite Hc, Hco, <- app_assoc|].
  intros Hro Hav Hri.
  assert (Hix : index_keys (chain w1) = Some (ks ++ [JStr (new_id now1 random)])).
  { unfold index_keys. by rewrite Hch, lookup_insert_eq. }
  destruct (loadRecords_reached e w1 _ Hro Hav Hri Hix) as (-> & _).
  unfold loaded. by rewrite Hch.
Qed.




(** C10.  When the stored index is not empty but does not parse, a
    create whose calls go through logs the parse error, carries on with
    an empty list of keys and rewrites the index as the new id alone: the
    reload that follows walks through that single key. *)
Theorem submit_over_unparsable_index (e : Env) (now1 : Z) (random : string)
    (now2 : Z) (w : World) (b64 : string) :
  provider w = true ->
  btoa_JSON e (newRecordData w) = Ok b64 ->
  getContractWithSigner e = Ok true ->
  write_error e (record_key (new_id now1 random)) = None ->
  signer_read_error e "record_keys" = None ->
  write_error e "record_keys" = None ->
  default Bytes0 (chain w !! "record_keys") = BytesBad ->
  let w' := submitRecord e now1 random now2 w in
  chain w' !! "record_keys" = Some (BytesJson (JArr [JStr (new_id now1 random)])) /\
  index_keys (chain w') = Some [JStr (new_id now1 random)] /\
  ("Error parsing keys:", engine_message e SyntaxErr) ∈ console w' /\
  transactionStatus w' = banner TxSuccess "Encrypted data submitted securely!".
Proof.
  intros Hpr Hb64 Hsig Hw1 Hrd Hw2 Hbad. cbv zeta.
  assert (Hks : keys_before (chain w) = Some []).
  { unfold keys_before. by rewrite Hbad. }
  destruct (submitRecord_success e now1 random now2 w b64 []
              Hpr Hb64 Hsig Hw1 Hrd Hw2 Hks)
    as (Hch & Htx & _ & _ & (rest & Hco) & _).
  rewrite Hbad in Hco. cbn [app] in Hch.
  split; [by rewrite Hch, lookup_insert_eq|].
  split; [unfold index_keys; by rewrite Hch, lookup_insert_eq|].
  split; [|done].
  rewrite Hco. apply elem_of_app. right. apply list_elem_of_In. cbn. tauto.
Qed.

(** A create over [broken_index]: the record [r1] is still stored, but
    no longer listed. *)
Lemma submit_over_unparsable_index_witness :
  chain (submitRecord calm 1700000500123 "k3j9x2a" 1700000500124
           (mounted broken_index "0xAb")) !! "record_keys" =
    Some (BytesJson (JArr [JStr "1700000500123-k3j9x2a"])) /\
  (id <$> records (submitRecord calm 1700000500123 "k3j9x2a" 1700000500124
                     (mounted broken_index "0xAb"))) =
    [JStr "1700000500123-k3j9x2a"].
Proof.
  destruct (submit_over_unparsable_index calm 1700000500123 "k3j9x2a"
              1700000500124 (mounted broken_index "0xAb") "KYC/secret")
    as (Hix & _); [reflexivity..|].
  split; [exact Hix | reflexivity].
Defined.

(** ** The status of a stored record *)

Lemma stored_status_written (c : gmap string bytes) (recordId newStatus : string)
    (v : json) :
  newStatus <> "" ->
  stored_status
    (<[record_key recordId :=
         BytesJson (JObj (obj_set "status" (JStr newStatus) (spread v)))]> c)
    recordId = Some (JStr newStatus).
Proof.
  intros Hne. unfold stored_status. rewrite lookup_insert_eq.
  unfold make_record. cbn [default from_option Datatypes.id get_prop].
  rewrite obj_get_set_eq. cbn [fmap option_fmap option_map status js_or truthy].
  by apply String.eqb_neq in Hne as ->.
Qed.

Lemma written_status_nonempty (r : request) : written_status r <> "".
Proof. by destruct r. Qed.

(** One request leaves the status of a record as it was, or sets the
    status of its own record to what it writes. *)
Lemma serve_status (e : Env) (r : request) (w : World) (recordId : string) :
  stored_status (chain (serve e r w)) recordId = stored_status (chain w) recordId \/
  target r = recordId /\
  stored_status (chain (serve e r w)) recordId = Some (JStr (written_status r)).
Proof.
  assert (H : forall success failure,
    stored_status
      (chain (update e (written_status r) success failure (target r) w)) recordId
      = stored_status (chain w) recordId \/
    target r = recordId /\
    stored_status
      (chain (update e (written_status r) success failure (target r) w)) recordId
      = Some (JStr (written_status r))).
  { intros success failure.
    destruct (update_chain e (written_status r) success failure (target r) w)
      as [-> | (v & _ & ->)]; [by left|].
    destruct (decide (target r = recordId)) as [<- | Hne].
    - right. split; [done|].
      apply stored_status_written, written_status_nonempty.
    - left. unfold stored_status. rewrite lookup_insert_ne; [done|].
      intros Heq. by apply record_key_inj in Heq. }
  destruct r; apply H.
Qed.

(** C1, as stated, fails: nothing in [verifyRecord] or [rejectRecord]
    looks at the stored status, so a record that was verified is rejected
    by the next call. *)
Lemma verified_then_rejected :
  stored_status (chain seen) "r1" = Some (JStr "pending") /\
  stored_status (chain (verifyRecord calm "r1" seen)) "r1" = Some (JStr "verified") /\
  stored_status (chain (rejectRecord calm "r1" (verifyRecord calm "r1" seen))) "r1" =
    Some (JStr "rejected").
Proof. split; [reflexivity | split; reflexivity]. Qed.

(** C1, amended.  No run of [verifyRecord] and [rejectRecord] calls moves
    a status back to pending; each call leaves a status as it is or sets
    the status of its own record to verified (rejected), whatever the
    status was; and only the rows displayed as pending, and owned by the
    connected account, show the two buttons. *)
Theorem status_never_returns_to_pending (rs : list (Env * request)) (w : World)
    (recordId : string) :
  (stored_status (chain w) recordId <> Some (JStr "pending") ->
   stored_status (chain (serve_all rs w)) recordId <> Some (JStr "pending")) /\
  (forall e r,
     stored_status (chain (serve e r w)) recordId = stored_status (chain w) recordId \/
     target r = recordId /\
     stored_status (chain (serve e r w)) recordId = Some (JStr (written_status r))) /\
  (forall record, shows_actions w record = true ->
     status record = JStr "pending" /\
     exists address, owner record = Some (JStr address) /\ isOwner w address = true).
Proof.
  split; [|split].
  - revert w. induction rs as [|[e r] rs IH]; intros w Hw; [done|].
    cbn [serve_all foldl fst snd]. apply IH.
    destruct (serve_status e r w recordId) as [-> | [_ ->]]; [done|].
    by destruct r.
  - intros e r. apply serve_status.
  - intros record. unfold shows_actions.
    destruct (owner record) as [[| | |address| |]|]; try done.
    intros [Ho H]%andb_true_iff. split; [|by exists address].
    destruct (status record); try done.
    cbn in H. by apply String.eqb_eq in H as ->.
Qed.

(** [r1], verified, then rejected and verified again. *)
Lemma status_never_returns_to_pending_witness :
  stored_status
    (chain (serve_all [(calm, Reject "r1"); (calm, Verify "r1")]
              (verifyRecord calm "r1" seen))) "r1" <> Some (JStr "pending").
Proof.
  apply (status_never_returns_to_pending
           [(calm, Reject "r1"); (calm, Verify "r1")]
           (verifyRecord calm "r1" seen) "r1").
  vm_compute. discriminate.
Defined.

(** ** Category counts *)

Lemma category_total_step (z1 z2 : catval) (y : nat) :
  match z1 with
  | Count k => (k + match z2 with Count k' => (k' + y)%nat | Text _ => y end)%nat
  | Text _ => match z2 with Count k' => (k' + y)%nat | Text _ => y end
  end =
  match z2 with
  | Count k' => (k' + match z1 with Count k => (k + y)%nat | Text _ => y end)%nat
  | Text _ => match z1 with Count k => (k + y)%nat | Text _ => y end
  end.
Proof. destruct z1, z2; lia. Qed.

Lemma category_total_insert_new (cs : gmap string catval) (k : string) (n : nat) :
  cs !! k = None ->
  category_total (<[k := Count n]> cs) = (n + category_total cs)%nat.
Proof.
  intros Hk. unfold category_total.
  rewrite map_fold_insert_L.
  - done.
  - intros j1 j2 z1 z2 y _ _ _. apply category_total_step.
  - done.
Qed.

Lemma category_total_insert_old (cs : gmap string catval) (k : string) (n m : nat) :
  cs !! k = Some (Count m) ->
  (category_total (<[k := Count n]> cs) + m = n + category_total cs)%nat.
Proof.
  intros Hk.
  rewrite <- (insert_delete_eq cs k (Count n)).
  rewrite category_total_insert_new by apply lookup_delete_eq.
  unfold category_total at 2.
  rewrite (map_fold_delete_L _ _ k (Count m) cs).
  - unfold category_total. lia.
  - intros j1 j2 z1 z2 y _ _ _. apply category_total_step.
  - done.
Qed.

Lemma counts_only_empty : counts_only ∅.
Proof. intros k v Hv. by rewrite lookup_empty in Hv. Qed.

(** Counting a category that [Object.prototype] does not define adds one
    to the sum and keeps every entry a number. *)
Lemma count_category_plain (e : Env) (cs : gmap string catval) (c : jsval) :
  counts_only cs ->
  key_of c ∉ Object_prototype ->
  counts_only (count_category e cs c) /\
  category_total (count_category e cs c) = S (category_total cs).
Proof.
  intros Hcs Hk. unfold count_category. cbv zeta.
  assert (Hp : String.eqb (key_of c) "__proto__" = false).
  { apply String.eqb_neq. intros Heq. apply Hk. rewrite Heq.
    apply list_elem_of_In. cbn. tauto. }
  rewrite Hp. rewrite bool_decide_eq_false_2 by done.
  destruct (cs !! key_of c) as [v|] eqn:Ev.
  - destruct (Hcs _ _ Ev) as [n ->]. split.
    + intros k v [[<- <-] | [_ Hv]]%lookup_insert_Some; eauto.
    + pose proof (category_total_insert_old cs (key_of c) (n + 1) n Ev). lia.
  - split.
    + intros k v [[<- <-] | [_ Hv]]%lookup_insert_Some; eauto.
    + by rewrite category_total_insert_new.
Qed.

Lemma absorb_categories (e : Env) (c : gmap string bytes) (ks : list json)
    (a : Locals) :
  counts_only (l_categoryStats a) ->
  Forall (fun r => key_of (category r) ∉ Object_prototype)
    (omap (fetch_record e c) ks) ->
  category_total (l_categoryStats (foldl (absorb e c) a ks)) =
  (category_total (l_categoryStats a) + length (omap (fetch_record e c) ks))%nat.
Proof.
  revert a. induction ks as [|k ks IH]; intros a Ha Hks; [cbn; lia|].
  cbn [foldl omap list_omap] in *. unfold absorb at 2.
  destruct (fetch_record e c k) as [r|]; [|by apply IH].
  apply Forall_cons in Hks as [Hr Hks].
  destruct (count_category_plain e (l_categoryStats a) (category r) Ha Hr)
    as [Hc Ht].
  rewrite IH; [|by rewrite tally_categoryStats|done].
  rewrite tally_categoryStats, Ht. cbn [length]. lia.
Qed.

(** What C8 says does hold for a list in which no category is the name
    of a member of [Object.prototype]: the counts per category add up to
    [totalRecords]. *)
Lemma category_counts_sum_to_total (e : Env) (w : World) (ks : list json) :
  getContractReadOnly e = Ok true ->
  isAvailable e = Ok true ->
  read_error e "record_keys" = None ->
  index_keys (chain w) = Some ks ->
  Forall (fun r => key_of (category r) ∉ Object_prototype) (loaded e w ks) ->
  counts_only (categoryStats (stats (loadRecords e w))) /\
  category_total (categoryStats (stats (loadRecords e w))) =
  totalRecords (stats (loadRecords e w)).
Proof.
  intros Hro Hav Hrd Hix Hcat.
  destruct (loadRecords_reached e w ks Hro Hav Hrd Hix) as (_ & -> & _).
  cbn [categoryStats totalRecords]. split.
  - clear Hix. unfold loaded in Hcat.
    assert (H : forall a, counts_only (l_categoryStats a) ->
      Forall (fun r => key_of (category r) ∉ Object_prototype)
        (omap (fetch_record e (chain w)) ks) ->
      counts_only (l_categoryStats (foldl (absorb e (chain w)) a ks))).
    { clear Hcat. induction ks as [|k ks IH]; intros a Ha Hks; [done|].
      cbn [foldl]. cbn [omap list_omap] in Hks. unfold absorb at 2.
      destruct (fetch_record e (chain w) k) as [r|]; [|by apply IH].
      apply Forall_cons in Hks as [Hr Hks]. apply IH; [|done].
      rewrite tally_categoryStats. by apply count_category_plain. }
    apply H; [apply counts_only_empty|done].
  - rewrite absorb_categories; [|apply counts_only_empty|done].
    unfold category_total at 1. cbn [no_locals l_categoryStats].
    by rewrite map_fold_empty.
Qed.

(** C8 at a record whose category is ["__proto__"]: the record is
    counted in [totalRecords], and [categoryStats] stays empty. *)
Theorem load_proto_category_uncounted :
  totalRecords (stats (loadRecords calm (mounted proto_store "0xAb"))) = 1%nat /\
  categoryStats (stats (loadRecords calm (mounted proto_store "0xAb"))) = ∅ /\
  category_total
    (categoryStats (stats (loadRecords calm (mounted proto_store "0xAb")))) = 0%nat.
Proof. split; [reflexivity | split; reflexivity]. Qed.

(** With category ["constructor"] the entry is not a number but the text
    of the inherited function followed by 1. *)
Example load_constructor_category_text :
  categoryStats (stats (loadRecords calm (mounted constructor_store "0xAb")))
    !! "constructor" = Some (Text "function Object() { [native code] }1") /\
  totalRecords (stats (loadRecords calm (mounted constructor_store "0xAb"))) = 1%nat.
Proof. split; reflexivity. Qed.

(** * Further properties *)

(** ** What a load does not do *)

Lemma record_fetches_read_only (ks : list json) :
  forallb (fun c => negb (is_write c))
    ((fun k => CallGetData (record_key (to_string k))) <$> ks) = true.
Proof. induction ks as [|k ks IH]; [done|]. cbn. exact IH. Qed.

Lemma loadRecords_reads (e : Env) (w : World) :
  exists t,
    trace (loadRecords e w) = trace w ++ t /\
    forallb (fun c => negb (is_write c)) t = true.
Proof.
  unfold loadRecords, loadRecords_try, getData, parse_keys. cbv zeta.
  destruct (getContractReadOnly e) as [[|]|]; cycle 1.
  { exists []. cbn. by rewrite app_nil_r. }
  { exists []. cbn. by rewrite app_nil_r. }
  destruct (isAvailable e) as [[|]|]; cycle 1.
  { by exists [CallIsAvailable]. }
  { by exists [CallIsAvailable]. }
  cbn [chain with_trace setIsRefreshing].
  destruct (read_error e "record_keys").
  { exists [CallIsAvailable; CallGetData "record_keys"]. cbn.
    by rewrite <- app_assoc. }
  rewrite !with_trace_logged.
  assert (Hloop : forall c0 v,
    exists t,
      let w' := setLoading false (setIsRefreshing false
        match iterate v with
        | Some ks =>
            let '(w2, a) :=
              foldl (load_step e)
                (logged c0 [CallIsAvailable; CallGetData "record_keys"]
                   (setIsRefreshing true w), no_locals) ks in
            let list := Array_sort by_timestamp (l_list a) in
            let w3 := setRecords list w2 in
            setStats {| totalRecords := length list; pending := l_pending a;
                        verified := l_verified a; rejected := l_rejected a;
                        categoryStats := l_categoryStats a |} w3
        | None => console_error "Error loading records:"
                    (engine_message e NotIterable)
                    (logged c0 [CallIsAvailable; CallGetData "record_keys"]
                       (setIsRefreshing true w))
        end) in
      trace w' = trace w ++ t /\
      forallb (fun c => negb (is_write c)) t = true).
  { intros c0 v. destruct (iterate v) as [ks|].
    - rewrite load_loop_spec, logged_logged. eexists. split; [by cbn|].
      cbn. apply record_fetches_read_only.
    - rewrite console_error_logged, logged_logged. eexists. split; [by cbn|].
      done. }
  cbn [trace setIsRefreshing logged with_trace with_console console].
  destruct (default Bytes0 (chain w !! "record_keys")) as [| |v];
    cbn [nonempty JSON_parse].
  - destruct (Hloop [] (JArr [])) as (t & H). exists t. revert H. cbv zeta.
    unfold logged. cbn. by rewrite ?app_nil_r, <- ?app_assoc.
  - destruct (Hloop [("Error parsing record keys:", engine_message e SyntaxErr)]
                (JArr [])) as (t & H). exists t. revert H. cbv zeta.
    unfold logged, console_error. cbn. by rewrite ?app_nil_r, <- ?app_assoc.
  - destruct (Hloop [] v) as (t & H). exists t. revert H. cbv zeta.
    unfold logged. cbn. by rewrite ?app_nil_r, <- ?app_assoc.
Qed.

(** X1.  A load is read-only, whatever the environment does and whatever
    the store holds: every call it adds is [isAvailable] or a [getData],
    and the store, the alerts, the banner, the account, the wallet and
    the form are as before. *)
Theorem load_is_read_only (e : Env) (w : World) :
  (exists t,
     trace (loadRecords e w) = trace w ++ t /\
     forallb (fun c => negb (is_write c)) t = true) /\
  chain (loadRecords e w) = chain w /\
  alerts (loadRecords e w) = alerts w /\
  transactionStatus (loadRecords e w) = transactionStatus w /\
  account (loadRecords e w) = account w /\
  provider (loadRecords e w) = provider w /\
  newRecordData (loadRecords e w) = newRecordData w.
Proof.
  split; [apply loadRecords_reads|].
  pose proof (loadRecords_bystanders e w) as H. unfold bystanders in H.
  injection H as Hc Hal Hacc Hpr _ Htx Hnew. done.
Qed.

(** X2.  When no read-only contract is obtained the load returns without
    a word; when the contract answers that it is not available the load
    says so on the console.  In both cases the index is never fetched and
    the list and the statistics stay as they were. *)
Theorem load_without_contract (e : Env) (w : World) :
  (getContractReadOnly e = Ok false ->
   records (loadRecords e w) = records w /\
   stats (loadRecords e w) = stats w /\
   trace (loadRecords e w) = trace w /\
   console (loadRecords e w) = console w) /\
  (getContractReadOnly e = Ok true -> isAvailable e = Ok false ->
   records (loadRecords e w) = records w /\
   stats (loadRecords e w) = stats w /\
   trace (loadRecords e w) = trace w ++ [CallIsAvailable] /\
   console (loadRecords e w) = console w ++ [("Contract is not available", "")]).
Proof.
  unfold loadRecords, loadRecords_try. split.
  - by intros ->.
  - by intros -> ->.
Qed.

(** X3.  An index that is stored but does not parse is read as no keys at
    all: the load logs the parse error, fetches no record and replaces
    whatever list was shown by the empty list, with all-zero
    statistics. *)
Theorem load_unparsable_index (e : Env) (w : World) :
  getContractReadOnly e = Ok true ->
  isAvailable e = Ok true ->
  read_error e "record_keys" = None ->
  default Bytes0 (chain w !! "record_keys") = BytesBad ->
  let w' := loadRecords e w in
  records w' = [] /\
  stats w' = no_stats /\
  console w' =
    console w ++ [("Error parsing record keys:", engine_message e SyntaxErr)] /\
  trace w' = trace w ++ [CallIsAvailable; CallGetData "record_keys"].
Proof.
  intros Hro Hav Hrd Hbad. unfold loadRecords, loadRecords_try, getData.
  rewrite Hro, Hav. cbn [chain with_trace setIsRefreshing]. rewrite Hrd, Hbad.
  cbn. by rewrite <- app_assoc.
Qed.

(** X4.  An index that parses to a value a [for-of] loop cannot walk
    (null, a boolean, a number, an object) makes the load throw before
    any record is fetched: the error is logged, and the list and the
    statistics stay as they were. *)
Theorem load_index_not_iterable (e : Env) (w : World) (v : json) :
  getContractReadOnly e = Ok true ->
  isAvailable e = Ok true ->
  read_error e "record_keys" = None ->
  default Bytes0 (chain w !! "record_keys") = BytesJson v ->
  iterate v = None ->
  let w' := loadRecords e w in
  records w' = records w /\
  stats w' = stats w /\
  console w' =
    console w ++ [("Error loading records:", engine_message e NotIterable)] /\
  trace w' = trace w ++ [CallIsAvailable; CallGetData "record_keys"].
Proof.
  intros Hro Hav Hrd Hv Hit. unfold loadRecords, loadRecords_try, getData.
  rewrite Hro, Hav. cbn [chain with_trace setIsRefreshing]. rewrite Hrd, Hv.
  cbn [parse_keys nonempty JSON_parse]. rewrite Hit.
  cbn. by rewrite <- app_assoc.
Qed.

(** [seen], at a time when the contract is not available. *)
Lemma load_without_contract_witness :
  records (loadRecords unavailable seen) = records seen /\
  console (loadRecords unavailable seen) =
    console seen ++ [("Contract is not available", "")].
Proof.
  destruct (load_without_contract unavailable seen) as [_ H].
  destruct H as (Hrec & _ & _ & Hcon); [reflexivity..|].
  split; [exact Hrec | exact Hcon].
Defined.

(** [seen], once its index has been overwritten with bytes that do not
    parse: the record on screen goes away. *)
Lemma load_unparsable_index_witness :
  records (with_chain broken_index seen) <> [] /\
  records (loadRecords calm (with_chain broken_index seen)) = [].
Proof.
  split; [vm_compute; discriminate|].
  apply (load_unparsable_index calm (with_chain broken_index seen));
    reflexivity.
Defined.

(** [seen], once its index has been overwritten with a JSON object: the
    record on screen stays. *)
Lemma load_index_not_iterable_witness :
  records (loadRecords calm (with_chain object_index seen)) = records seen.
Proof.
  apply (load_index_not_iterable calm (with_chain object_index seen)
           (JObj [("r1", JBool true)])); reflexivity.
Defined.

(** ** The list and the counters of a load that reaches the loop *)

Lemma status_partition (l : list EncryptedRecord) :
  (length (filter (fun r => has_status "pending" r = true) l) +
   length (filter (fun r => has_status "verified" r = true) l) +
   length (filter (fun r => has_status "rejected" r = true) l) +
   length (filter (fun r => other_status r = true) l))%nat = length l.
Proof.
  induction l as [|r l IH]; [done|].
  rewrite !filter_cons. unfold other_status, has_status in *.
  destruct (is_str (status r) "pending") eqn:Ep.
  - rewrite (is_str_exclusive _ "pending" "verified"),
      (is_str_exclusive _ "pending" "rejected") by done.
    repeat case_decide; try done; cbn in *; lia.
  - destruct (is_str (status r) "verified") eqn:Ev.
    + rewrite (is_str_exclusive _ "verified" "rejected") by done.
      repeat case_decide; try done; cbn in *; lia.
    + destruct (is_str (status r) "rejected") eqn:Er;
        repeat case_decide; try done; cbn in *; lia.
Qed.

(** Inserting a record leaves the records of any one timestamp in the
    order they had, the new one first. *)
Lemma sort_insert_ties (t : Z) (x : EncryptedRecord) (l : list EncryptedRecord) :
  filter (fun r => has_timestamp t r = true) (sort_insert by_timestamp x l) =
  filter (fun r => has_timestamp t r = true) (x :: l).
Proof.
  induction l as [|y l IH]; [done|].
  cbn [sort_insert]. destruct (goes_after by_timestamp x y) eqn:Ego; [|done].
  rewrite filter_cons, IH, !filter_cons.
  destruct (decide (has_timestamp t y = true)) as [Hy|Hy]; [|done].
  destruct (decide (has_timestamp t x = true)) as [Hx|Hx]; [|done].
  exfalso. unfold has_timestamp in Hx, Hy.
  unfold goes_after, by_timestamp, js_minus in Ego.
  destruct (timestamp x) as [[| |tx| | |]|]; try done.
  destruct (timestamp y) as [[| |ty| | |]|]; try done.
  cbn in Ego. apply Z.eqb_eq in Hx, Hy. apply Z.ltb_lt in Ego. lia.
Qed.

Lemma Array_sort_ties (t : Z) (l : list EncryptedRecord) :
  filter (fun r => has_timestamp t r = true) (Array_sort by_timestamp l) =
  filter (fun r => has_timestamp t r = true) l.
Proof.
  induction l as [|x l IH]; [done|].
  cbn [Array_sort foldr]. fold (Array_sort by_timestamp l).
  by rewrite sort_insert_ties, !filter_cons, IH.
Qed.

Section ReachedMore.

Variables (e : Env) (w : World) (ks : list json).
Hypothesis contract_obtained : getContractReadOnly e = Ok true.
Hypothesis contract_available : isAvailable e = Ok true.
Hypothesis index_fetched : read_error e "record_keys" = None.
Hypothesis index_walked : index_keys (chain w) = Some ks.

(** X5.  The three status counters never exceed [totalRecords], and they
    fall short of it by exactly the number of listed records whose status
    is neither pending, verified nor rejected: such a record is listed
    and counted in the total, but in none of the three. *)
Theorem status_counters_partition :
  let s := stats (loadRecords e w) in
  (pending s + verified s + rejected s +
   length (filter (fun r => other_status r = true) (records (loadRecords e w))))%nat
  = totalRecords s /\
  totalRecords s = length (records (loadRecords e w)).
Proof.
  destruct (loadRecords_reached e w ks contract_obtained contract_available
              index_fetched index_walked) as (Hrec & Hst & _).
  cbv zeta. rewrite Hst. cbn [pending verified rejected totalRecords].
  assert (Hperm : records (loadRecords e w) ≡ₚ loaded e w ks).
  { rewrite Hrec. apply Array_sort_perm. }
  rewrite Hperm. split; [apply status_partition | done].
Qed.

(** X6.  A stored record whose [status] is missing, or is null, false, 0
    or the empty string, is listed as pending. *)
Theorem missing_status_listed_as_pending (k : json) (o : list (string * json)) :
  k ∈ ks ->
  read_error e (record_key (to_string k)) = None ->
  default Bytes0 (chain w !! record_key (to_string k)) = BytesJson (JObj o) ->
  truthy (obj_get "status" o) = false ->
  {| id := k; encryptedData := obj_get "data" o;
     timestamp := obj_get "timestamp" o; owner := obj_get "owner" o;
     category := obj_get "category" o; status := JStr "pending" |}
    ∈ records (loadRecords e w).
Proof.
  intros Hk Hread Hstored Hfalsy.
  destruct (loadRecords_reached e w ks contract_obtained contract_available
              index_fetched index_walked) as (-> & _).
  rewrite Array_sort_perm. apply list_elem_of_omap. exists k. split; [done|].
  unfold fetch_record. rewrite Hread, Hstored. unfold make_record.
  cbn [get_prop]. unfold js_or. rewrite Hfalsy.
  by destruct (obj_get "status" o).
Qed.

(** X7.  When the timestamps of the records that loaded are numbers,
    records with the same timestamp are listed in the order of their keys
    in the index: the sort moves a record only behind records that are
    strictly more recent. *)
Theorem load_keeps_index_order_on_ties (t : Z) :
  Forall numeric_timestamp (loaded e w ks) ->
  filter (fun r => has_timestamp t r = true) (records (loadRecords e w)) =
  filter (fun r => has_timestamp t r = true) (loaded e w ks).
Proof.
  intros _.
  destruct (loadRecords_reached e w ks contract_obtained contract_available
              index_fetched index_walked) as (-> & _).
  apply Array_sort_ties.
Qed.

End ReachedMore.

(** [tied_store]: the record with status "archived" is in the total and
    in no counter; the record with status [false] is pending. *)
Lemma status_counters_partition_witness :
  totalRecords (stats (loadRecords calm (mounted tied_store "0xAb"))) = 3%nat /\
  (pending (stats (loadRecords calm (mounted tied_store "0xAb"))) +
   verified (stats (loadRecords calm (mounted tied_store "0xAb"))) +
   rejected (stats (loadRecords calm (mounted tied_store "0xAb"))) + 1)%nat = 3%nat.
Proof.
  destruct (status_counters_partition calm (mounted tied_store "0xAb")
              [JStr "a"; JStr "z"; JStr "b"]) as [Hsum Hlen]; [reflexivity..|].
  split; [exact Hlen | exact Hsum].
Defined.

Lemma missing_status_listed_as_pending_witness :
  {| id := JStr "b"; encryptedData := Some (JStr "FHE-eg==");
     timestamp := Some (JNum 1700000000); owner := Some (JStr "0xCd");
     category := Some (JStr "Credit"); status := JStr "pending" |}
    ∈ records (loadRecords calm (mounted tied_store "0xAb")).
Proof.
  apply (missing_status_listed_as_pending calm (mounted tied_store "0xAb")
           [JStr "a"; JStr "z"; JStr "b"] eq_refl eq_refl eq_refl eq_refl
           (JStr "b")
           [("data", JStr "FHE-eg=="); ("timestamp", JNum 1700000000);
            ("owner", JStr "0xCd"); ("category", JStr "Credit");
            ("status", JBool false)]); [|reflexivity..].
  apply list_elem_of_In. cbn. tauto.
Defined.

(** [tied_store]: [a] stays before [b], both behind the later [z]. *)
Lemma load_keeps_index_order_on_ties_witness :
  id <$> filter (fun r => has_timestamp 1700000000 r = true)
           (records (loadRecords calm (mounted tied_store "0xAb"))) =
  [JStr "a"; JStr "b"].
Proof.
  rewrite (load_keeps_index_order_on_ties calm (mounted tied_store "0xAb")
             [JStr "a"; JStr "z"; JStr "b"] eq_refl eq_refl eq_refl eq_refl
             1700000000).
  - reflexivity.
  - vm_compute. repeat constructor; eexists; reflexivity.
Defined.

(** ** Creates that fail *)

(** X9.  When the write of the record fails, a create stops there: the
    store is unchanged, the index is not even read, no reload happens,
    and [creating] is back to false.  The banner reads "Transaction
    rejected by user" when the failure mentions a user rejection, and
    "Submission failed: " followed by the message otherwise. *)
Theorem create_first_write_fails (e : Env) (now1 : Z) (random : string)
    (now2 : Z) (w : World) (b64 message : string) :
  provider w = true ->
  btoa_JSON e (newRecordData w) = Ok b64 ->
  getContractWithSigner e = Ok true ->
  write_error e (record_key (new_id now1 random)) = Some message ->
  let w' := submitRecord e now1 random now2 w in
  chain w' = chain w /\
  trace w' = trace w ++
    [CallSetData (record_key (new_id now1 random))
       (BytesJson (new_recordData ("FHE-" +:+ b64) (now2 / 1000) (account w)
                     (form_category (newRecordData w))))] /\
  records w' = records w /\
  stats w' = stats w /\
  creating w' = false /\
  transactionStatus w' =
    banner TxError
      (if includes message "user rejected transaction"
       then "Transaction rejected by user"
       else "Submission failed: " +:+ message_or_unknown message).
Proof.
  intros Hpr Hb64 Hsig Hwr. cbv zeta.
  unfold submitRecord. rewrite Hpr. cbn [negb].
  unfold submitRecord_try. run_block.
  fold (record_key (new_id now1 random)).
  cbn [newRecordData account setTransactionStatus setCreating].
  rewrite Hb64, Hsig. cbn [chain trace with_trace with_chain]. rewrite Hwr.
  done.
Qed.

(** The wallet turns the transaction down. *)
Lemma create_first_write_fails_witness :
  chain (submitRecord refusing 1700000500123 "k3j9x2a" 1700000500124 seen) =
    chain seen /\
  transactionStatus
    (submitRecord refusing 1700000500123 "k3j9x2a" 1700000500124 seen) =
    banner TxError "Transaction rejected by user".
Proof.
  destruct (create_first_write_fails refusing 1700000500123 "k3j9x2a"
              1700000500124 seen "KYC/secret"
              "user rejected transaction (action=sendTransaction)")
    as (Hch & _ & _ & _ & _ & Htx); [reflexivity..|].
  split; [exact Hch | exact Htx].
Defined.

Lemma submitRecord_try_stranded (e : Env) (now1 : Z) (random : string)
    (now2 : Z) (w : World) (b64 : string) :
  btoa_JSON e (newRecordData w) = Ok b64 ->
  getContractWithSigner e = Ok true ->
  write_error e (record_key (new_id now1 random)) = None ->
  signer_read_error e "record_keys" <> None \/
  (exists v, default Bytes0 (chain w !! "record_keys") = BytesJson v /\
             push v (JStr (new_id now1 random)) = None) \/
  (is_Some (keys_before (chain w)) /\ write_error e "record_keys" <> None) ->
  exists message w1,
    submitRecord_try e now1 random now2 w = (Throw message, w1) /\
    chain w1 =
      <[record_key (new_id now1 random) :=
          BytesJson (new_recordData ("FHE-" +:+ b64) (now2 / 1000) (account w)
                       (form_category (newRecordData w)))]> (chain w) /\
    records w1 = records w /\
    stats w1 = stats w.
Proof.
  intros Hb64 Hsig Hw1 Hfail.
  unfold submitRecord_try. run_block.
  fold (record_key (new_id now1 random)).
  rewrite Hb64, Hsig, Hw1.
  cbn [chain trace with_trace with_chain].
  rewrite lookup_insert_ne by apply new_key_not_index.
  destruct (signer_read_error e "record_keys") as [m|] eqn:Erd.
  { by eexists _, _. }
  destruct Hfail as [Hfail | [(v & Hv & Hpush) | [[ks Hks] Hwr]]]; [done| |].
  - rewrite Hv. cbn [parse_keys nonempty JSON_parse]. rewrite Hpush.
    by eexists _, _.
  - unfold keys_before in Hks. unfold parse_keys.
    destruct (write_error e "record_keys") as [m|] eqn:Ewr; [|done].
    destruct (default Bytes0 (chain w !! "record_keys")) as [| |v];
      cbn [nonempty JSON_parse].
    + cbn [push]. cbn [chain trace with_trace with_chain].
      by eexists _, _.
    + cbn [push]. cbn [chain trace with_trace with_chain console_error with_console].
      by eexists _, _.
    + destruct v; try done. cbn [push].
      cbn [chain trace with_trace with_chain].
      by eexists _, _.
Qed.

(** X10.  Nothing undoes the write of the record when a create fails
    after it: if reading the index throws, if the stored index is not an
    array, or if rewriting the index fails, the record stays stored
    under its key while the index is as before, so no later load lists
    it; the banner shows an error and no reload happens. *)
Theorem create_leaves_record_out_of_index (e : Env) (now1 : Z)
    (random : string) (now2 : Z) (w : World) (b64 : string) :
  provider w = true ->
  btoa_JSON e (newRecordData w) = Ok b64 ->
  getContractWithSigner e = Ok true ->
  write_error e (record_key (new_id now1 random)) = None ->
  signer_read_error e "record_keys" <> None \/
  (exists v, default Bytes0 (chain w !! "record_keys") = BytesJson v /\
             push v (JStr (new_id now1 random)) = None) \/
  (is_Some (keys_before (chain w)) /\ write_error e "record_keys" <> None) ->
  let w' := submitRecord e now1 random now2 w in
  chain w' =
    <[record_key (new_id now1 random) :=
        BytesJson (new_recordData ("FHE-" +:+ b64) (now2 / 1000) (account w)
                     (form_category (newRecordData w)))]> (chain w) /\
  chain w' !! "record_keys" = chain w !! "record_keys" /\
  tx (transactionStatus w') = TxError /\
  records w' = records w /\
  stats w' = stats w /\
  creating w' = false.
Proof.
  intros Hpr Hb64 Hsig Hw1 Hfail. cbv zeta.
  unfold submitRecord. rewrite Hpr. cbn [negb].
  destruct (submitRecord_try_stranded e now1 random now2
              (setTransactionStatus
                 (banner TxPending "Encrypting sensitive data with Zama FHE...")
                 (setCreating true w)) b64 Hb64 Hsig Hw1 Hfail)
    as (message & w1 & -> & Hch & Hrec & Hst).
  cbn in Hch, Hrec, Hst |- *.
  split; [done|]. split; [|done].
  rewrite Hch. apply lookup_insert_ne, new_key_not_index.
Qed.

(** The record is written, the index is not: the list a later load shows
    is the one shown before. *)
Lemma create_leaves_record_out_of_index_witness :
  chain (submitRecord index_locked 1700000500123 "k3j9x2a" 1700000500124 seen)
    !! "record_1700000500123-k3j9x2a" <> None /\
  chain (submitRecord index_locked 1700000500123 "k3j9x2a" 1700000500124 seen)
    !! "record_keys" = chain seen !! "record_keys" /\
  records (loadRecords calm
             (submitRecord index_locked 1700000500123 "k3j9x2a" 1700000500124 seen))
    = records seen.
Proof.
  destruct (create_leaves_record_out_of_index index_locked 1700000500123
              "k3j9x2a" 1700000500124 seen "KYC/secret")
    as (_ & Hix & _); [reflexivity..| |].
  - right. right. split; [by eexists|discriminate].
  - split; [vm_compute; discriminate|].
    split; [exact Hix | vm_compute; reflexivity].
Defined.

(** ** Creates that go through *)

Lemma fetch_record_same_bytes (e : Env) (c c' : gmap string bytes) (ks : list json) :
  Forall (fun k => c' !! record_key (to_string k) = c !! record_key (to_string k)) ks ->
  omap (fetch_record e c') ks = omap (fetch_record e c) ks.
Proof.
  induction 1 as [|k ks Hk _ IH]; [done|].
  cbn [omap list_omap]. fold (omap (fetch_record e c') ks).
  fold (omap (fetch_record e c) ks). rewrite IH.
  unfold fetch_record. by rewrite Hk.
Qed.

(** *** The session through an asynchronous block *)

Lemma keeps_session_bind {A B} (m : action A) (k : A -> action B) :
  keeps_session m -> (forall a, keeps_session (k a)) -> keeps_session (bind m k).
Proof.
  intros Hm Hk w. unfold bind. specialize (Hm w).
  destruct (m w) as [[a|message] w1]; cbn [snd] in *; [|done].
  by rewrite Hk.
Qed.

Lemma keeps_session_ret {A} (a : A) : keeps_session (ret a).
Proof. done. Qed.

Lemma keeps_session_throw {A} (message : string) : keeps_session (@throw A message).
Proof. done. Qed.

Lemma keeps_session_lift {A} (o : outcome A) : keeps_session (lift o).
Proof. done. Qed.

Lemma keeps_session_get {A} (f : World -> A) : keeps_session (get f).
Proof. done. Qed.

Lemma keeps_session_modify (f : World -> World) :
  (forall w, session (f w) = session w) -> keeps_session (modify f).
Proof. intros Hf w. apply Hf. Qed.

Lemma keeps_session_getData (errs : string -> option string) (key : string) :
  keeps_session (getData errs key).
Proof. intros w. unfold getData. by destruct (errs key). Qed.

Lemma keeps_session_setData (e : Env) (key : string) (value : bytes) :
  keeps_session (setData e key value).
Proof. intros w. unfold setData. by destruct (write_error e key). Qed.

Lemma keeps_session_contract (e : Env) : keeps_session (contractWithSigner e).
Proof.
  intros w. unfold contractWithSigner, bind, lift.
  by destruct (getContractWithSigner e) as [[|]|].
Qed.

Lemma loadRecords_session (e : Env) (w : World) :
  session (loadRecords e w) = session w.
Proof.
  pose proof (loadRecords_bystanders e w) as H. unfold bystanders in H.
  injection H as _ _ Hacc Hpr _ _ Hnew. unfold session.
  f_equal; [f_equal|]; [exact Hacc | exact Hpr | exact Hnew].
Qed.

Create HintDb session.

#[local] Hint Resolve keeps_session_ret keeps_session_throw keeps_session_lift
  keeps_session_get keeps_session_getData keeps_session_setData
  keeps_session_contract loadRecords_session : session.

Lemma submitRecord_try_session (e : Env) (now1 : Z) (random : string) (now2 : Z) :
  keeps_session (submitRecord_try e now1 random now2).
Proof.
  unfold submitRecord_try.
  repeat (apply keeps_session_bind; [auto with session | intros ?]);
    try (apply keeps_session_modify; intros ?; auto with session).
  - unfold parse_keys.
    destruct (nonempty _); [destruct (JSON_parse _)|]; done.
  - by destruct (push _ _).
Qed.

Lemma update_try_session (e : Env) (newStatus success recordId : string) :
  keeps_session (update_try e newStatus success recordId).
Proof.
  unfold update_try.
  repeat (apply keeps_session_bind; [auto with session | intros ?]);
    try (apply keeps_session_modify; intros ?; auto with session).
  - by destruct (nonempty _).
  - by destruct (JSON_parse _).
Qed.

(** No create and no status update changes who is connected or what the
    form holds. *)
Lemma submitRecord_session (e : Env) (now1 : Z) (random : string) (now2 : Z)
    (w : World) :
  session (submitRecord e now1 random now2 w) = session w.
Proof.
  unfold submitRecord. destruct (provider w) eqn:Hpr; cbn [negb]; [|done].
  pose proof (submitRecord_try_session e now1 random now2
    (setTransactionStatus
       (banner TxPending "Encrypting sensitive data with Zama FHE...")
       (setCreating true w))) as H.
  destruct (submitRecord_try _ _ _ _ _) as [[u|message] w1]; cbn [snd] in H;
    unfold session in *; cbn in *; done.
Qed.

Lemma serve_session (e : Env) (r : request) (w : World) :
  session (serve e r w) = session w.
Proof.
  assert (H : forall newStatus success failure recordId,
    session (update e newStatus success failure recordId w) = session w).
  { intros. unfold update. destruct (provider w) eqn:Hpr; cbn [negb]; [|done].
    pose proof (update_try_session e newStatus success recordId
      (setTransactionStatus
         (banner TxPending "Processing encrypted data with FHE...") w)) as H.
    destruct (update_try _ _ _ _ _) as [[u|message] w1]; cbn [snd] in H;
      unfold session in *; cbn in *; done. }
  destruct r; apply H.
Qed.

(** A create that goes through, followed by a reload that reaches the
    loop: the list and the statistics are those of the old keys and the
    new one, read off the new store. *)
Lemma submitRecord_reloaded (e : Env) (now1 : Z) (random : string) (now2 : Z)
    (w : World) (b64 : string) (ks : list json) :
  provider w = true ->
  btoa_JSON e (newRecordData w) = Ok b64 ->
  getContractWithSigner e = Ok true ->
  write_error e (record_key (new_id now1 random)) = None ->
  signer_read_error e "record_keys" = None ->
  write_error e "record_keys" = None ->
  keys_before (chain w) = Some ks ->
  getContractReadOnly e = Ok true ->
  isAvailable e = Ok true ->
  read_error e "record_keys" = None ->
  let w' := submitRecord e now1 random now2 w in
  let l := omap (fetch_record e (chain w')) (ks ++ [JStr (new_id now1 random)]) in
  chain w' =
    <["record_keys" := BytesJson (JArr (ks ++ [JStr (new_id now1 random)]))]>
      (<[record_key (new_id now1 random) :=
           BytesJson (new_recordData ("FHE-" +:+ b64) (now2 / 1000) (account w)
                        (form_category (newRecordData w)))]> (chain w)) /\
  records w' = Array_sort by_timestamp l /\
  totalRecords (stats w') = length l /\
  pending (stats w') = length (filter (fun r => has_status "pending" r = true) l) /\
  verified (stats w') = length (filter (fun r => has_status "verified" r = true) l) /\
  rejected (stats w') = length (filter (fun r => has_status "rejected" r = true) l).
Proof.
  intros Hpr Hb64 Hsig Hw1 Hrd Hw2 Hks Hro Hav Hri. cbv zeta.
  unfold submitRecord. rewrite Hpr. cbn [negb].
  destruct (submitRecord_try_success e now1 random now2
              (setTransactionStatus
                 (banner TxPending "Encrypting sensitive data with Zama FHE...")
                 (setCreating true w)) b64 ks Hb64 Hsig Hw1 Hrd Hw2 Hks)
    as (w1 & -> & Hch & _).
  cbn [chain account newRecordData setTransactionStatus setCreating
       records stats] in *.
  assert (Hix : index_keys (chain w1) = Some (ks ++ [JStr (new_id now1 random)])).
  { unfold index_keys. by rewrite Hch, lookup_insert_eq. }
  destruct (loadRecords_reached e w1 _ Hro Hav Hri Hix) as (-> & -> & _).
  rewrite loadRecords_chain. unfold loaded.
  cbn [totalRecords pending verified rejected]. by rewrite Hch.
Qed.

(** X8.  A create that goes through adds exactly one record to what a
    load showed before: the reloaded list is the new pending record
    together with the records the old index led to, unchanged, so the
    total and the pending counter go up by one and the other counters
    stay.  The old keys must not name the new id or the index itself. *)
Theorem create_adds_one_pending_record (e : Env) (now1 : Z) (random : string)
    (now2 : Z) (w : World) (b64 : string) (ks : list json) :
  provider w = true ->
  btoa_JSON e (newRecordData w) = Ok b64 ->
  getContractWithSigner e = Ok true ->
  write_error e (record_key (new_id now1 random)) = None ->
  signer_read_error e "record_keys" = None ->
  write_error e "record_keys" = None ->
  keys_before (chain w) = Some ks ->
  Forall (fun k => to_string k <> new_id now1 random /\ to_string k <> "keys") ks ->
  getContractReadOnly e = Ok true ->
  isAvailable e = Ok true ->
  read_error e "record_keys" = None ->
  read_error e (record_key (new_id now1 random)) = None ->
  let w' := submitRecord e now1 random now2 w in
  let before := loaded e w ks in
  records w' ≡ₚ
    created_record (new_id now1 random) ("FHE-" +:+ b64) (now2 / 1000)
      (account w) (form_category (newRecordData w)) :: before /\
  totalRecords (stats w') = S (length before) /\
  pending (stats w') =
    S (length (filter (fun r => has_status "pending" r = true) before)) /\
  verified (stats w') =
    length (filter (fun r => has_status "verified" r = true) before) /\
  rejected (stats w') =
    length (filter (fun r => has_status "rejected" r = true) before).
Proof.
  intros Hpr Hb64 Hsig Hw1 Hrd Hw2 Hks Hfresh Hro Hav Hri Hrr. cbv zeta.
  destruct (submitRecord_reloaded e now1 random now2 w b64 ks
              Hpr Hb64 Hsig Hw1 Hrd Hw2 Hks Hro Hav Hri)
    as (Hch & -> & -> & -> & -> & ->).
  assert (Hl : omap (fetch_record e (chain (submitRecord e now1 random now2 w)))
                 (ks ++ [JStr (new_id now1 random)]) =
               loaded e w ks ++
               [created_record (new_id now1 random) ("FHE-" +:+ b64) (now2 / 1000)
                  (account w) (form_category (newRecordData w))]).
  { rewrite omap_app. f_equal.
    - apply fetch_record_same_bytes.
      eapply Forall_impl; [exact Hfresh|]. intros k [Hk1 Hk2]. cbn beta.
      rewrite Hch, !lookup_insert_ne; [done| |].
      + intros Heq. by apply record_key_inj in Heq.
      + intros Heq. apply Hk2. by apply (record_key_inj (to_string k) "keys").
    - cbn [omap list_omap]. unfold fetch_record. cbn [to_string].
      rewrite Hrr, Hch.
      rewrite lookup_insert_ne by (apply not_eq_sym, new_key_not_index).
      by rewrite lookup_insert_eq. }
  rewrite Hl, Array_sort_perm, !filter_app, !length_app.
  split; [by rewrite <- Permutation_cons_append|].
  cbn. repeat case_decide; try done. cbn. lia.
Qed.

(** A create on top of [seen]: two records, both pending. *)
Lemma create_adds_one_pending_record_witness :
  totalRecords
    (stats (submitRecord calm 1700000500123 "k3j9x2a" 1700000500124 seen)) = 2%nat /\
  pending
    (stats (submitRecord calm 1700000500123 "k3j9x2a" 1700000500124 seen)) = 2%nat.
Proof.
  destruct (create_adds_one_pending_record calm 1700000500123 "k3j9x2a"
              1700000500124 seen "KYC/secret" [JStr "r1"])
    as (_ & Htot & Hpen & _); try reflexivity.
  - repeat constructor; discriminate.
  - split; [exact Htot | exact Hpen].
Defined.

(** X11.  The record a create stores is listed, after the reload, with
    its Verify and Reject buttons, for the account that created it and
    for any account that differs from it by the case of its letters
    only. *)
Theorem creator_sees_actions (e : Env) (now1 : Z) (random : string)
    (now2 : Z) (w : World) (b64 : string) (ks : list json) :
  provider w = true ->
  btoa_JSON e (newRecordData w) = Ok b64 ->
  getContractWithSigner e = Ok true ->
  write_error e (record_key (new_id now1 random)) = None ->
  signer_read_error e "record_keys" = None ->
  write_error e "record_keys" = None ->
  keys_before (chain w) = Some ks ->
  getContractReadOnly e = Ok true ->
  isAvailable e = Ok true ->
  read_error e "record_keys" = None ->
  read_error e (record_key (new_id now1 random)) = None ->
  let w' := submitRecord e now1 random now2 w in
  let r := created_record (new_id now1 random) ("FHE-" +:+ b64) (now2 / 1000)
             (account w) (form_category (newRecordData w)) in
  r ∈ records w' /\
  shows_actions w' r = true /\
  forall w2, toLowerCase (account w2) = toLowerCase (account w) ->
             shows_actions w2 r = true.
Proof.
  intros Hpr Hb64 Hsig Hw1 Hrd Hw2 Hks Hro Hav Hri Hrr. cbv zeta.
  destruct (submitRecord_reloaded e now1 random now2 w b64 ks
              Hpr Hb64 Hsig Hw1 Hrd Hw2 Hks Hro Hav Hri) as (Hch & -> & _).
  assert (Hshow : forall w2, toLowerCase (account w2) = toLowerCase (account w) ->
    shows_actions w2
      (created_record (new_id now1 random) ("FHE-" +:+ b64) (now2 / 1000)
         (account w) (form_category (newRecordData w))) = true).
  { intros w2 Hacc. unfold shows_actions, isOwner. cbn [owner status created_record].
    rewrite Hacc, String.eqb_refl. done. }
  split; [|split; [|done]].
  - rewrite Array_sort_perm. apply list_elem_of_omap.
    exists (JStr (new_id now1 random)).
    split; [apply elem_of_app; right; apply list_elem_of_In; cbn; tauto|].
    unfold fetch_record. cbn [to_string]. rewrite Hrr, Hch.
    rewrite lookup_insert_ne by (apply not_eq_sym, new_key_not_index).
    by rewrite lookup_insert_eq.
  - apply Hshow. pose proof (submitRecord_session e now1 random now2 w) as Hs.
    unfold session in Hs. by injection Hs as -> _ _.
Qed.

(** The record created on top of [seen] by "0xAb" shows its buttons, also
    once the wallet reports the account as "0xAB". *)
Lemma creator_sees_actions_witness :
  shows_actions (submitRecord calm 1700000500123 "k3j9x2a" 1700000500124 seen)
    (created_record "1700000500123-k3j9x2a" "FHE-KYC/secret" 1700000500
       "0xAb" "KYC") = true /\
  shows_actions
    (onAccountsChanged ["0xAB"]
       (submitRecord calm 1700000500123 "k3j9x2a" 1700000500124 seen))
    (created_record "1700000500123-k3j9x2a" "FHE-KYC/secret" 1700000500
       "0xAb" "KYC") = true.
Proof.
  destruct (creator_sees_actions calm 1700000500123 "k3j9x2a" 1700000500124
              seen "KYC/secret" [JStr "r1"]) as (_ & Hown & Hcase);
    [reflexivity..|].
  split; [exact Hown|]. apply Hcase. reflexivity.
Defined.

(** X12.  The index only grows at its end: after any run of creates that
    go through, the list of keys is the one before the run followed by
    the new ids in the order of the creates; no id is dropped or moved. *)
Theorem creates_append_to_index (e : Env) (cs : list (Z * string * Z))
    (w : World) (b64 : string) (ks : list json) :
  provider w = true ->
  btoa_JSON e (newRecordData w) = Ok b64 ->
  getContractWithSigner e = Ok true ->
  (forall key, write_error e key = None) ->
  signer_read_error e "record_keys" = None ->
  keys_before (chain w) = Some ks ->
  keys_before (chain (submit_all e cs w)) = Some (ks ++ ids_of cs).
Proof.
  intros Hpr Hb64 Hsig Hwr Hrd. revert w ks Hpr Hb64.
  induction cs as [|[[now1 random] now2] cs IH]; intros w ks Hpr Hb64 Hks.
  - cbn. by rewrite app_nil_r.
  - cbn [submit_all foldl ids_of fmap list_fmap fst snd].
    fold (submit_all e cs (submitRecord e now1 random now2 w)).
    fold (ids_of cs).
    destruct (submitRecord_success e now1 random now2 w b64 ks
                Hpr Hb64 Hsig (Hwr _) Hrd (Hwr _) Hks) as (Hch & _).
    pose proof (submitRecord_session e now1 random now2 w) as Hs.
    unfold session in Hs. injection Hs as Hacc Hprov Hform.
    rewrite (IH _ (ks ++ [JStr (new_id now1 random)])).
    + by rewrite <- app_assoc.
    + by rewrite Hprov.
    + by rewrite Hform.
    + unfold keys_before. by rewrite Hch, lookup_insert_eq.
Qed.

(** Two creates on top of [seen]. *)
Lemma creates_append_to_index_witness :
  keys_before
    (chain (submit_all calm
              [(1700000500123, "k3j9x2a", 1700000500124);
               (1700000600456, "p0q8w7e", 1700000600457)] seen)) =
  Some [JStr "r1"; JStr "1700000500123-k3j9x2a"; JStr "1700000600456-p0q8w7e"].
Proof.
  apply (creates_append_to_index calm
           [(1700000500123, "k3j9x2a", 1700000500124);
            (1700000600456, "p0q8w7e", 1700000600457)]
           seen "KYC/secret" [JStr "r1"]); reflexivity.
Defined.

(** ** Status updates and the list *)








Lemma obj_set_set (k : string) (v1 v2 : json) (o : list (string * json)) :
  obj_set k v2 (obj_set k v1 o) = obj_set k v2 o.
Proof.
  induction o as [|[k' v'] o IH]; cbn.
  - by rewrite String.eqb_refl.
  - destruct (String.eqb k k') eqn:E; cbn; rewrite ?String.eqb_refl, ?E; [done|].
    by rewrite IH.
Qed.

Lemma serve_existing (e : Env) (r : request) (w : World) (o : list (string * json)) :
  provider w = true ->
  getContractWithSigner e = Ok true ->
  signer_read_error e (record_key (target r)) = None ->
  write_error e (record_key (target r)) = None ->
  default Bytes0 (chain w !! record_key (target r)) = BytesJson (JObj o) ->
  chain (serve e r w) =
    <[record_key (target r) :=
        BytesJson (JObj (obj_set "status" (JStr (written_status r)) o))]> (chain w).
Proof.
  intros Hpr Hsig Hrd Hwr Ho.
  destruct r as [recordId|recordId]; cbn [target serve written_status] in *;
    by apply update_existing.
Qed.

(** X14.  Of two status updates of the same record that both go through,
    the second alone decides what is stored: the store ends as if the
    first had never been made.  In particular an update repeated is the
    update made once, and a verified record that is then rejected is
    stored exactly like a record rejected at once. *)
Theorem last_update_wins (e1 e2 : Env) (r1 r2 : request) (w : World)
    (o : list (string * json)) :
  target r1 = target r2 ->
  provider w = true ->
  getContractWithSigner e1 = Ok true ->
  signer_read_error e1 (record_key (target r1)) = None ->
  write_error e1 (record_key (target r1)) = None ->
  getContractWithSigner e2 = Ok true ->
  signer_read_error e2 (record_key (target r2)) = None ->
  write_error e2 (record_key (target r2)) = None ->
  default Bytes0 (chain w !! record_key (target r1)) = BytesJson (JObj o) ->
  chain (serve e2 r2 (serve e1 r1 w)) = chain (serve e2 r2 w) /\
  stored_status (chain (serve e2 r2 (serve e1 r1 w))) (target r2) =
    Some (JStr (written_status r2)).
Proof.
  intros Ht Hpr Hs1 Hr1 Hw1 Hs2 Hr2 Hw2 Ho.
  pose proof (serve_existing e1 r1 w o Hpr Hs1 Hr1 Hw1 Ho) as H1.
  assert (Hpr1 : provider (serve e1 r1 w) = true).
  { pose proof (serve_session e1 r1 w) as Hs. unfold session in Hs.
    injection Hs as _ Hp _. by rewrite Hp. }
  assert (Ho1 : default Bytes0 (chain (serve e1 r1 w) !! record_key (target r2)) =
                BytesJson (JObj (obj_set "status" (JStr (written_status r1)) o))).
  { by rewrite H1, <- Ht, lookup_insert_eq. }
  rewrite Ht in Ho.
  rewrite (serve_existing e2 r2 _ _ Hpr1 Hs2 Hr2 Hw2 Ho1).
  rewrite (serve_existing e2 r2 w o Hpr Hs2 Hr2 Hw2 Ho).
  rewrite H1, Ht, insert_insert_eq, obj_set_set. split; [done|].
  apply (stored_status_written _ _ _ (JObj o)), written_status_nonempty.
Qed.

(** [r1] of [seen]: verified then rejected, and rejected at once. *)
Lemma last_update_wins_witness :
  chain (rejectRecord calm "r1" (verifyRecord calm "r1" seen)) =
  chain (rejectRecord calm "r1" seen).
Proof.
  apply (last_update_wins calm calm (Verify "r1") (Reject "r1") seen
           [("data", JStr "FHE-eA=="); ("timestamp", JNum 1700000000);
            ("owner", JStr "0xAb"); ("category", JStr "KYC");
            ("status", JStr "pending")]); reflexivity.
Defined.

(** X15.  A status update whose stored bytes do not parse, or whose
    transaction fails, changes neither the store nor the list nor the
    statistics.  The banner shows the prefix of the action followed by
    the raw message of the failure, a rejection by the user included:
    unlike a create, an update has no wording of its own for it. *)
Theorem update_failure_keeps_store (e : Env) (r : request) (w : World) :
  provider w = true ->
  getContractWithSigner e = Ok true ->
  signer_read_error e (record_key (target r)) = None ->
  let w' := serve e r w in
  (default Bytes0 (chain w !! record_key (target r)) = BytesBad ->
   chain w' = chain w /\ records w' = records w /\ stats w' = stats w /\
   trace w' = trace w ++ [CallGetData (record_key (target r))] /\
   transactionStatus w' =
     banner TxError
       (failure_prefix r +:+ message_or_unknown (engine_message e SyntaxErr))) /\
  (forall v message,
     default Bytes0 (chain w !! record_key (target r)) = BytesJson v ->
     write_error e (record_key (target r)) = Some message ->
     chain w' = chain w /\ records w' = records w /\ stats w' = stats w /\
     transactionStatus w' =
       banner TxError (failure_prefix r +:+ message_or_unknown message)).
Proof.
  intros Hpr Hsig Hrd.
  assert (H : forall newStatus success failure recordId,
    signer_read_error e (record_key recordId) = None ->
    let w' := update e newStatus success failure recordId w in
    (default Bytes0 (chain w !! record_key recordId) = BytesBad ->
     chain w' = chain w /\ records w' = records w /\ stats w' = stats w /\
     trace w' = trace w ++ [CallGetData (record_key recordId)] /\
     transactionStatus w' =
       banner TxError
         (failure +:+ message_or_unknown (engine_message e SyntaxErr))) /\
    (forall v message,
       default Bytes0 (chain w !! record_key recordId) = BytesJson v ->
       write_error e (record_key recordId) = Some message ->
       chain w' = chain w /\ records w' = records w /\ stats w' = stats w /\
       transactionStatus w' =
         banner TxError (failure +:+ message_or_unknown message))).
  { intros newStatus success failure recordId Hrd'. cbv zeta.
    unfold update. rewrite Hpr. cbn [negb]. rewrite update_try_cases. cbv zeta.
    cbn [chain setTransactionStatus with_trace trace]. rewrite Hsig, Hrd'.
    split.
    - by intros ->.
    - by intros v message -> ->. }
  destruct r as [recordId|recordId]; cbn [target serve failure_prefix] in *;
    by apply H.
Qed.

(** The wallet turns down the verification of [r1]. *)
Lemma update_failure_keeps_store_witness :
  chain (verifyRecord refusing "r1" seen) = chain seen /\
  transactionStatus (verifyRecord refusing "r1" seen) =
    banner TxError
      "Verification failed: user rejected transaction (action=sendTransaction)".
Proof.
  destruct (update_failure_keeps_store refusing (Verify "r1") seen)
    as [_ H]; [reflexivity..|].
  destruct (H (JObj [("data", JStr "FHE-eA=="); ("timestamp", JNum 1700000000);
                     ("owner", JStr "0xAb"); ("category", JStr "KYC");
                     ("status", JStr "pending")])
              "user rejected transaction (action=sendTransaction)")
    as (Hch & _ & _ & Htx); [reflexivity..|].
  split; [exact Hch | exact Htx].
Defined.

(** ** The wallet *)

Lemma toLowerCase_empty (s : string) : toLowerCase s = "" -> s = "".
Proof. by destruct s. Qed.

(** X16.  After a disconnect no create and no status update reaches the
    contract: each only raises the alert that asks for a wallet.  The
    list stays on screen, and the only rows that still show their
    buttons are the pending ones whose stored owner is the empty
    string. *)
Theorem disconnect_blocks_mutations (e : Env) (w : World) :
  let w0 := onDisconnect w in
  (forall now1 random now2,
     submitRecord e now1 random now2 w0 = alert "Please connect wallet first" w0) /\
  (forall r, serve e r w0 = alert "Please connect wallet first" w0) /\
  records w0 = records w /\
  chain w0 = chain w /\
  (forall r, shows_actions w0 r = true ->
     owner r = Some (JStr "") /\ status r = JStr "pending").
Proof.
  cbv zeta. split; [done|]. split; [by intros []|]. split; [done|].
  split; [done|]. intros r. unfold shows_actions, isOwner.
  cbn [onDisconnect account setProvider setAccount].
  destruct (owner r) as [[| | |address| |]|]; try done.
  intros [Ho Hs]%andb_true_iff. cbn in Ho.
  destruct (toLowerCase address) eqn:Elow; [|done].
  apply toLowerCase_empty in Elow as ->.
  split; [done|]. destruct (status r); try done.
  cbn in Hs. by apply String.eqb_eq in Hs as ->.
Qed.

(** X17.  When the wallet refuses the account request, [onWalletSelect]
    raises its alert but has already stored the provider, and the account
    is not touched: the wallet check of a create lets the next create
    through, and the record it writes is owned by whatever account was
    set before, the empty string if none. *)
Theorem failed_connection_keeps_provider (wallet : Wallet) (e : Env)
    (now1 : Z) (random : string) (now2 : Z) (w : World) (b64 : string)
    (ks : list json) :
  wallet_provider wallet = true ->
  browserProvider wallet = Ok tt ->
  (exists message, requestAccounts wallet = Throw message) ->
  btoa_JSON e (newRecordData w) = Ok b64 ->
  getContractWithSigner e = Ok true ->
  write_error e (record_key (new_id now1 random)) = None ->
  signer_read_error e "record_keys" = None ->
  write_error e "record_keys" = None ->
  keys_before (chain w) = Some ks ->
  let w1 := onWalletSelect wallet w in
  alerts w1 = alerts w ++ ["Failed to connect wallet"] /\
  provider w1 = true /\
  account w1 = account w /\
  stored_field (chain (submitRecord e now1 random now2 w1))
    (new_id now1 random) "owner" = Some (Some (JStr (account w))).
Proof.
  intros Hwp Hbp [message Hreq] Hb64 Hsig Hw1 Hrd Hw2 Hks. cbv zeta.
  assert (Hw : onWalletSelect wallet w =
               alert "Failed to connect wallet" (setProvider true w)).
  { unfold onWalletSelect. by rewrite Hwp, Hbp, Hreq. }
  rewrite Hw. split; [done|]. split; [done|]. split; [done|].
  destruct (submitRecord_success e now1 random now2
              (alert "Failed to connect wallet" (setProvider true w)) b64 ks)
    as (Hch & _); try done.
  unfold stored_field. rewrite Hch.
  rewrite lookup_insert_ne by (apply not_eq_sym, new_key_not_index).
  by rewrite lookup_insert_eq.
Qed.

(** A first visit: the account request is declined, the create goes
    through all the same, and the record has no owner. *)
Lemma failed_connection_keeps_provider_witness :
  provider (onWalletSelect declined (onDisconnect (mounted ∅ ""))) = true /\
  stored_field
    (chain (submitRecord calm 1700000500123 "k3j9x2a" 1700000500124
              (onWalletSelect declined (onDisconnect (mounted ∅ "")))))
    "1700000500123-k3j9x2a" "owner" = Some (Some (JStr "")).
Proof.
  destruct (failed_connection_keeps_provider declined calm 1700000500123
              "k3j9x2a" 1700000500124 (onDisconnect (mounted ∅ ""))
              "KYC/secret" [])
    as (_ & Hpr & _ & Hown); try reflexivity.
  - by eexists.
  - split; [exact Hpr | exact Hown].
Defined.

(** ** The create modal *)

(** X18.  The modal sends nothing while a required field is empty: with
    an empty category or empty sensitive information [handleSubmit] only
    raises its alert, and makes no call.  So whenever a submit through
    the modal makes a call, both fields are filled in; the description
    is never required. *)
Theorem modal_requires_fields (e : Env) (now1 : Z) (random : string)
    (now2 : Z) (w : World) :
  let w' := handleSubmit e now1 random now2 w in
  (form_category (newRecordData w) = "" \/
   form_sensitiveInfo (newRecordData w) = "" ->
   w' = alert "Please fill required fields" w) /\
  (trace w' <> trace w ->
   form_category (newRecordData w) <> "" /\
   form_sensitiveInfo (newRecordData w) <> "" /\
   w' = submitRecord e now1 random now2 w) /\
  (forall value,
     handleSubmit e now1 random now2 (handleChange FCategory "" w) =
       alert "Please fill required fields" (handleChange FCategory "" w) /\
     (form_category (newRecordData w) <> "" ->
      form_sensitiveInfo (newRecordData w) <> "" ->
      handleSubmit e now1 random now2 (handleChange FDescription value w) =
        submitRecord e now1 random now2 (handleChange FDescription value w))).
Proof.
  cbv zeta. unfold handleSubmit. split; [|split].
  - intros [-> | ->]; cbn; [done|]. by rewrite orb_true_r.
  - intros Htr.
    destruct (String.eqb (form_category (newRecordData w)) "") eqn:Ec;
      [by cbn in Htr|].
    destruct (String.eqb (form_sensitiveInfo (newRecordData w)) "") eqn:Es;
      [by cbn in Htr|].
    apply String.eqb_neq in Ec, Es. done.
  - intros value. split; [done|]. intros Hc Hs.
    cbn [handleChange newRecordData setNewRecordData form_category
         form_sensitiveInfo].
    by apply String.eqb_neq in Hc as ->; apply String.eqb_neq in Hs as ->.
Qed.

(** The form of [seen], with its category cleared. *)
Lemma modal_requires_fields_witness :
  trace (handleSubmit calm 1700000500123 "k3j9x2a" 1700000500124
           (handleChange FCategory "" seen)) = trace seen /\
  alerts (handleSubmit calm 1700000500123 "k3j9x2a" 1700000500124
            (handleChange FCategory "" seen)) = ["Please fill required fields"].
Proof.
  destruct (modal_requires_fields calm 1700000500123 "k3j9x2a" 1700000500124
              (handleChange FCategory "" seen)) as (Hempty & _).
  rewrite Hempty; [|left; reflexivity]. split; vm_compute; reflexivity.
Defined.

(** [seen], disconnected: a create only raises the alert. *)
Lemma disconnect_blocks_mutations_witness :
  trace (submitRecord calm 1700000500123 "k3j9x2a" 1700000500124
           (onDisconnect seen)) = trace seen /\
  shows_actions (onDisconnect seen)
    (created_record "r1" "FHE-eA==" 1700000000 "0xAb" "KYC") = false.
Proof.
  destruct (disconnect_blocks_mutations calm seen) as (Hsub & _ & _ & _ & Hshow).
  split.
  { rewrite (Hsub 1700000500123 "k3j9x2a" 1700000500124).
    vm_compute. reflexivity. }
  destruct (shows_actions (onDisconnect seen)
              (created_record "r1" "FHE-eA==" 1700000000 "0xAb" "KYC")) eqn:E;
    [|reflexivity].
  by destruct (Hshow _ E).
Defined.

(** ** Creates that fail before any call *)

(** X19.  When the form cannot be encoded, or no contract is obtained
    for the signer, a create makes no call at all: store, list and
    statistics are unchanged, [creating] is back to false, and the banner
    reads "Submission failed: " followed by the message of the error. *)
Theorem create_fails_before_any_call (e : Env) (now1 : Z) (random : string)
    (now2 : Z) (w : World) (message : string) :
  provider w = true ->
  btoa_JSON e (newRecordData w) = Throw message \/
  (exists b64, btoa_JSON e (newRecordData w) = Ok b64) /\
  (getContractWithSigner e = Throw message \/
   getContractWithSigner e = Ok false /\
   message = "Failed to get contract with signer") ->
  includes message "user rejected transaction" = false ->
  let w' := submitRecord e now1 random now2 w in
  trace w' = trace w /\
  chain w' = chain w /\
  records w' = records w /\
  stats w' = stats w /\
  creating w' = false /\
  transactionStatus w' =
    banner TxError ("Submission failed: " +:+ message_or_unknown message).
Proof.
  intros Hpr Hfail Hinc. cbv zeta.
  unfold submitRecord. rewrite Hpr. cbn [negb].
  unfold submitRecord_try. run_block.
  cbn [newRecordData account setTransactionStatus setCreating].
  destruct Hfail as [-> | [[b64 ->] [-> | [-> ->]]]]; cbn; by rewrite ?Hinc.
Qed.

(** The form holds a character [btoa] cannot encode. *)
Lemma create_fails_before_any_call_witness :
  trace (submitRecord unencodable 1700000500123 "k3j9x2a" 1700000500124 seen) =
    trace seen /\
  transactionStatus
    (submitRecord unencodable 1700000500123 "k3j9x2a" 1700000500124 seen) =
    banner TxError "Submission failed: Invalid character".
Proof.
  destruct (create_fails_before_any_call unencodable 1700000500123 "k3j9x2a"
              1700000500124 seen "Invalid character")
    as (Htr & _ & _ & _ & _ & Htx); [reflexivity|by left|reflexivity|].
  split; [exact Htr | exact Htx].
Defined.

(** ** Loading twice *)

(** Either a load gets as far as the loop, or it leaves the list and the
    statistics of any world over that store as they were. *)
Lemma load_reaches_or_keeps (e : Env) (c : gmap string bytes) :
  (getContractReadOnly e = Ok true /\ isAvailable e = Ok true /\
   read_error e "record_keys" = None /\ is_Some (index_keys c)) \/
  (forall w, chain w = c ->
     records (loadRecords e w) = records w /\ stats (loadRecords e w) = stats w).
Proof.
  destruct (getContractReadOnly e) as [[|]|] eqn:Hro; cycle 1.
  { right. intros w _. unfold loadRecords, loadRecords_try. by rewrite Hro. }
  { right. intros w _. unfold loadRecords, loadRecords_try. by rewrite Hro. }
  destruct (isAvailable e) as [[|]|] eqn:Hav; cycle 1.
  { right. intros w _. unfold loadRecords, loadRecords_try. by rewrite Hro, Hav. }
  { right. intros w _. unfold loadRecords, loadRecords_try. by rewrite Hro, Hav. }
  destruct (read_error e "record_keys") as [m|] eqn:Hrd.
  { right. intros w _. unfold loadRecords, loadRecords_try, getData.
    rewrite Hro, Hav. cbn [chain with_trace setIsRefreshing]. by rewrite Hrd. }
  destruct (index_keys c) as [ks|] eqn:Hix; [left; eauto|].
  right. intros w <-. unfold index_keys in Hix.
  unfold loadRecords, loadRecords_try, getData.
  rewrite Hro, Hav. cbn [chain with_trace setIsRefreshing]. rewrite Hrd.
  destruct (default Bytes0 (chain w !! "record_keys")) as [| |v]; [done..|].
  cbn [parse_keys nonempty JSON_parse]. by rewrite Hix.
Qed.

(** X20.  Loading a second time, with the store and the behaviour of the
    environment unchanged, shows the same list and the same statistics
    as the first load, whether the loads succeed or fail. *)
Theorem load_twice (e : Env) (w : World) :
  records (loadRecords e (loadRecords e w)) = records (loadRecords e w) /\
  stats (loadRecords e (loadRecords e w)) = stats (loadRecords e w).
Proof.
  destruct (load_reaches_or_keeps e (chain w))
    as [(Hro & Hav & Hrd & [ks Hix]) | Hkeep].
  - assert (Hix' : index_keys (chain (loadRecords e w)) = Some ks)
      by by rewrite loadRecords_chain.
    destruct (loadRecords_reached e w ks Hro Hav Hrd Hix) as (-> & -> & _).
    destruct (loadRecords_reached e _ ks Hro Hav Hrd Hix') as (-> & -> & _).
    unfold loaded. by rewrite loadRecords_chain.
  - apply Hkeep, loadRecords_chain.
Qed.
